(** * Verification of [src/visualization.py]

    A shallow embedding of the data-to-visual transformations performed by
    the plotting helpers of the repository:

    - [visualize_attrs]: per-token ranking of attribution scores
      ([DataFrame.rank(method="min", ascending=False)] followed by the cast
      [to_numpy(dtype=np.int8)]) and the palette lookup [np.array(pal)[rank]];
    - [embedding_histogram]: mean / standard deviation bounds, the count of
      values inside them and the two order statistics [soft_top], [soft_bot];
    - [visualize_word_path] and [visualize_word_paths]: the loop that
      annotates a label only when it differs from [last_word];
    - the common tail of the composers: [save_str] handling.

    Conventions.  Attribution scores are rationals ([Q]): every finite
    float64 is a rational and ranking only compares scores.  The statistics
    of [embedding_histogram] need a square root and are stated over the real
    numbers ([R]), i.e. floating-point rounding is idealised away.  Integers
    are [Z]; the 8-bit cast is written out as a wrap-around.  Calls into the
    plotting library that complete are recorded as events of a trace,
    exceptions abort the rest of the function and reach the caller.  Whether
    [plt.savefig] can write its target is a fact of the file system and is a
    parameter, [can_write], of every function that saves.  The projector
    [pca] is a parameter as well: its [transform] is a function from
    embedding rows to points that returns. *)

From Stdlib Require Import ZArith QArith List Bool Lia Arith Orders.
From Stdlib Require Import Sorting.Mergesort Sorting.Sorted Sorting.Permutation.
From Stdlib Require Import Strings.String.
From Stdlib Require Import Floats.PrimFloat Floats.SpecFloat Floats.FloatOps.
From Stdlib Require Import Numbers.Cyclic.Int63.Uint63.
From Stdlib Require Import Reals Lra.
Import ListNotations.

Set Implicit Arguments.

(* ================================================================= *)
(** ** Python and numpy primitives shared by the functions *)

Module Py.

(** Exceptions the modelled code can raise. *)
Inductive exn : Type :=
| IndexError
| ValueError
| TypeError
| OSError.

(** [a[i]] on a sequence of length [n]: [0 <= i < n] selects from the
    front, [-n <= i < 0] selects [a[n + i]], anything else raises
    [IndexError].  Note that [-0 = 0] selects the first element. *)
Definition getitem {A : Type} (a : list A) (i : Z) : option A :=
  let n := Z.of_nat (List.length a) in
  if (0 <=? i)%Z then nth_error a (Z.to_nat i)
  else if (- n <=? i)%Z then nth_error a (Z.to_nat (n + i))
  else None.

(** [enumerate(xs)]. *)
Fixpoint enumerate_from {A : Type} (i : nat) (xs : list A) : list (nat * A) :=
  match xs with
  | [] => []
  | x :: xs' => (i, x) :: enumerate_from (S i) xs'
  end.

Definition enumerate {A : Type} (xs : list A) : list (nat * A) :=
  enumerate_from 0 xs.

(** The cast of an integral float64 to [np.int8], as numpy performs it for
    values that fit a machine integer (ranks do): the value is truncated to
    its low 8 bits and read as a signed byte. *)
Definition astype_int8 (z : Z) : Z := ((z + 128) mod 256 - 128)%Z.

(** [s.endswith(suffix)]. *)
Definition endswith (s suffix : string) : bool :=
  let n := String.length s in
  let m := String.length suffix in
  (m <=? n)%nat && String.eqb (substring (n - m) m s) suffix.

End Py.

(* ================================================================= *)
(** ** Ranking of attribution scores ([visualize_attrs], lines 40-47) *)

Module Rank.

(** Strict comparison of scores, [x < y] as a boolean. *)
Definition Qltb (x y : Q) : bool := negb (Qle_bool y x).

(** Descending order on scores, as used by [ascending=False]. *)
Module QDescOrder <: TotalLeBool.
Definition t : Type := Q.
Definition leb (x y : Q) : bool := Qle_bool y x.
Definition leb_total : forall x y, leb x y = true \/ leb y x = true.
Proof.
  intros x y. unfold leb. rewrite !Qle_bool_iff.
  destruct (Qlt_le_dec x y) as [H | H]; [right; apply Qlt_le_weak | left]; exact H.
Qed.
End QDescOrder.

Module QDescSort := Sort QDescOrder.

(** Position (0-based) of the first entry of [l] equal to [x]. *)
Fixpoint first_index (x : Q) (l : list Q) : nat :=
  match l with
  | [] => 0
  | y :: l' => if Qeq_bool y x then 0 else S (first_index x l')
  end.

(** [rank(method="min", ascending=False)] on one column: the values are
    ordered descending, positions are numbered from 1, and every member of
    a group of equal values receives the lowest position of the group. *)
Definition rank_min_desc (attrs : list Q) : list Z :=
  let ordered := QDescSort.sort attrs in
  map (fun x => Z.of_nat (S (first_index x ordered))) attrs.

(** Line 42: the rank column converted with [to_numpy(dtype=np.int8)]. *)
Definition rank (attrs : list Q) : list Z :=
  map Py.astype_int8 (rank_min_desc attrs).

(** Number of scores strictly greater than [x]. *)
Definition count_greater (x : Q) (attrs : list Q) : nat :=
  List.length (filter (fun y => Qltb x y) attrs).

(** Number of scores equal to [x]. *)
Definition count_equal (x : Q) (attrs : list Q) : nat :=
  List.length (filter (fun y => Qeq_bool x y) attrs).

(** No two positions hold the same score. *)
Definition pairwise_distinct (attrs : list Q) : Prop :=
  ForallOrdPairs (fun a b => ~ (a == b)%Q) attrs.

(** Competition ranking as the specification words it. *)
Definition competition_rank (attrs : list Q) : list Z :=
  map (fun x => (1 + Z.of_nat (count_greater x attrs))%Z) attrs.

End Rank.

(* ================================================================= *)
(** ** Distribution statistics ([embedding_histogram], lines 82-103) *)

Module Stats.

(** [flattened > bot] and [flattened < top], elementwise tests. *)
Definition Rltb (x y : R) : bool := if Rlt_dec x y then true else false.
Definition Rgtb (x y : R) : bool := Rltb y x.

(** Ascending order, as used by [np.sort]. *)
Module RAscOrder <: TotalLeBool.
Definition t : Type := R.
Definition leb (x y : R) : bool := if Rle_dec x y then true else false.
Definition leb_total : forall x y, leb x y = true \/ leb y x = true.
Proof.
  intros x y. unfold leb.
  destruct (Rle_dec x y); [now left|].
  destruct (Rle_dec y x); [now right|]. exfalso. lra.
Qed.
End RAscOrder.

Module RAscSort := Sort RAscOrder.

Definition np_sort (a : list R) : list R := RAscSort.sort a.

Definition np_total (a : list R) : R := fold_right Rplus 0%R a.

(** [np.mean(a)]: the sum divided by the number of elements. *)
Definition np_mean (a : list R) : R := (np_total a / INR (List.length a))%R.

(** [np.std(a)] with its default [ddof=0]:
    [sqrt(mean(abs(a - a.mean())**2))]. *)
Definition np_std (a : list R) : R :=
  let m := np_mean a in
  sqrt (np_mean (map (fun x => (Rabs (x - m) ^ 2)%R) a)).

(** [np.sum] of a boolean array. *)
Definition np_sum_bool (mask : list bool) : Z :=
  fold_right (fun (b : bool) acc => (Z.b2z b + acc)%Z) 0%Z mask.

Definition np_min (a : list R) : R :=
  match a with [] => 0%R | x :: a' => fold_right Rmin x a' end.

Definition np_max (a : list R) : R :=
  match a with [] => 0%R | x :: a' => fold_right Rmax x a' end.

(** Nearest integer to [n / d] for [d > 0], halves going to the even
    neighbour: Python's [round] on a number. *)
Definition round_half_even_div (n d : Z) : Z :=
  let q := (n / d)%Z in
  let r := (n mod d)%Z in
  if (2 * r <? d)%Z then q
  else if (d <? 2 * r)%Z then (q + 1)%Z
  else if Z.even q then q else (q + 1)%Z.

(** [round(len(flattened) * 0.001)] with the product taken exactly.  The
    binary64 evaluation [n_outliers_binary64] below gives the same integer
    on every length that was checked (see [n_outliers_binary64_agrees]). *)
Definition n_outliers_exact (len : Z) : Z := round_half_even_div len 1000.

Definition n_outliers (len : nat) : Z := n_outliers_exact (Z.of_nat len).

(** [round(f)] on a binary64 value: the exact value [m * 2^e] of the float
    is rounded, halves to even.  Infinities and NaN raise in Python. *)
Definition py_round_float (f : float) : option Z :=
  match Prim2SF f with
  | S754_zero _ => Some 0%Z
  | S754_finite sgn m e =>
      let v := if sgn then Z.neg m else Z.pos m in
      if (0 <=? e)%Z then Some (v * 2 ^ e)%Z
      else Some (round_half_even_div v (2 ^ (- e)))
  | S754_infinity _ => None
  | S754_nan => None
  end.

(** Line 91 as the interpreter evaluates it: the length converted to a
    float, multiplied by the double nearest to [0.001], then rounded. *)
Definition n_outliers_binary64 (len : Z) : option Z :=
  py_round_float
    (PrimFloat.mul (PrimFloat.of_uint63 (Uint63.of_Z len))
                   0x1.0624dd2f1a9fcp-10%float).

(** Does the binary64 evaluation give the integer of [n_outliers]? *)
Definition binary64_agrees (len : Z) : bool :=
  match n_outliers_binary64 len with
  | Some k => (k =? n_outliers_exact len)%Z
  | None => false
  end.

(** The check on the [count] lengths [from, from + 1, ...]. *)
Fixpoint binary64_agrees_range (count : nat) (from : Z) : bool :=
  match count with
  | O => true
  | S count' => binary64_agrees from && binary64_agrees_range count' (from + 1)
  end.

(** The elementwise test of line 88. *)
Definition inside (bot top x : R) : bool := Rgtb x bot && Rltb x top.

(** The values [embedding_histogram] prints and draws. *)
Record summary : Type := {
  s_min : R;
  s_max : R;
  mu : R;
  sigma : R;
  top : R;
  bot : R;
  soft_top : R;
  soft_bot : R;
  count : Z;
  pct : R
}.

(** Lines 83-103.  The two subscripts are the only operations of the
    function that can raise; both come before the first [print]. *)
Definition embedding_histogram (flattened : list R) : Py.exn + summary :=
  let mu := np_mean flattened in
  let sigma := np_std flattened in
  let top := (mu + 258 / 100 * sigma)%R in
  let bot := (mu - 258 / 100 * sigma)%R in
  let count :=
    np_sum_bool (map (inside bot top) flattened) in
  let flattened_sorted := np_sort flattened in
  let n_outliers := n_outliers (List.length flattened) in
  match Py.getitem flattened_sorted n_outliers with
  | None => inl Py.IndexError
  | Some soft_top =>
      match Py.getitem flattened_sorted (- n_outliers)%Z with
      | None => inl Py.IndexError
      | Some soft_bot =>
          inr {| s_min := np_min flattened;
                 s_max := np_max flattened;
                 mu := mu;
                 sigma := sigma;
                 top := top;
                 bot := bot;
                 soft_top := soft_top;
                 soft_bot := soft_bot;
                 count := count;
                 pct := (100 * IZR count / INR (List.length flattened))%R |}
      end
  end.

End Stats.

(* ================================================================= *)
(** ** The composers: calls into the plotting library as a trace *)

Module Plot.

(** [Path(s)] and [p / q] of [pathlib], kept as written. *)
Inductive path : Type :=
| Path (s : string)
| PathDiv (p q : path).

(** A projected point [(x, y)], an embedding row, a palette entry.  The
    palette [sns.color_palette("summer", n)] has [n] entries; an entry is
    identified with its position in the palette. *)
Definition point : Type := (Q * Q)%type.
Definition embedding : Type := list Q.
Definition color : Type := nat.

(** One constructor per call into matplotlib / seaborn (and [print]). *)
Inductive event : Type :=
| Subplots (nrows ncols : nat)
| InsetAxes
| Barplot (row : nat) (attr : list Q) (palette : list color)
| SetXTicksRow (row : nat) (ticks : list nat)
| SetXTickLabelsRow (row : nat) (labels : list string)
| SetYLabelRow (row : nat) (label : string)
| Colorbar (ticks : list Z)
| ColorbarTickLabels (labels : list string)
| FigText (version_ig model_str : string)
| Suptitle (parts : list string)
| Print (values : Stats.summary)
| Axvline (x : R)
| Hist (values : list R) (bins : nat)
| PlotXY (x y : list Q) (label : string)
| SetXTicks (ticks : list Q)
| Scatter (pts : list point)
| PlotLine (pts : list point) (label : string)
| Annotate (text : string) (xy : point)
| AnnotateArr (text : string) (xy : list point)
| Legend
| Title (parts : list string)
| SetXLabel (label : string)
| SetYLabel (label : string)
| TightLayout
| AxisOff
| Table (cellText : list (list string))
| TableFont
| TableCellRed (row col : nat)
| SaveFig (target : path)
| Show.
(* [SaveFig] and [Show] stand for calls that completed: a [savefig] that
   raised wrote nothing and leaves no event. *)

(** A computation performs calls (the trace) and then either raises or
    returns.  What was drawn before an exception stays drawn. *)
Definition M (A : Type) : Type := (list event * (Py.exn + A))%type.

Definition ret {A : Type} (a : A) : M A := ([], inr a).

Definition raise {A : Type} (e : Py.exn) : M A := ([], inl e).

Definition emit (ev : event) : M unit := ([ev], inr tt).

Definition bind {A B : Type} (m : M A) (k : A -> M B) : M B :=
  match m with
  | (tr, inl e) => (tr, inl e)
  | (tr, inr a) => let (tr', r) := k a in (tr ++ tr', r)
  end.

Notation "x <- m ;; k" := (bind m (fun x => k))
  (at level 61, m at next level, right associativity).
Notation "m ;; k" := (bind m (fun _ => k))
  (at level 61, right associativity).

(** A [for] loop over a list. *)
Fixpoint for_each {A : Type} (xs : list A) (body : A -> M unit) : M unit :=
  match xs with
  | [] => ret tt
  | x :: xs' => body x ;; for_each xs' body
  end.

(** A subscript that raises [IndexError] when out of range. *)
Definition subscript {A : Type} (a : list A) (i : Z) : M A :=
  match Py.getitem a i with
  | Some x => ret x
  | None => raise Py.IndexError
  end.

(** [a[idx]] with an integer array [idx]: one subscript per index. *)
Fixpoint take {A : Type} (a : list A) (idx : list Z) : M (list A) :=
  match idx with
  | [] => ret []
  | i :: idx' => x <- subscript a i ;; xs <- take a idx' ;; ret (x :: xs)
  end.

(** [plt.subplots(nrows, ncols, ...)]: a grid needs at least one row. *)
Definition plt_subplots (nrows ncols : nat) : M unit :=
  match nrows with
  | O => raise Py.ValueError
  | S _ => emit (Subplots nrows ncols)
  end.

Definition color_palette (n : nat) : list color := seq 0 n.

(** [plt.savefig(target)]: the file is written, or the call raises an
    [OSError] ([FileNotFoundError] when the directory is missing,
    [PermissionError], ...). *)
Definition plt_savefig (can_write : path -> bool) (target : path) : M unit :=
  if can_write target then emit (SaveFig target) else raise Py.OSError.

(** [sns.barplot(x=df.index, y="attr", data=df, palette=...)]: seaborn
    raises [ValueError] on a frame without rows. *)
Definition sns_barplot (row : nat) (attr : list Q) (palette : list color)
  : M unit :=
  match attr with
  | [] => raise Py.ValueError
  | _ :: _ => emit (Barplot row attr palette)
  end.

(** The tail shared by the composers that take [save_str]
    (lines 74-79, 137-142, 220-225, 258-263, 290-295). *)
Definition save_or_show (can_write : path -> bool) (save_str : option string)
  : M unit :=
  match save_str with
  | Some name =>
      let name :=
        if negb (Py.endswith name ".png") then (name ++ ".png")%string
        else name in
      plt_savefig can_write (PathDiv (Path "figures") (Path name))
  | None => emit Show
  end.

(** Lines 40-55: the body of the loop over [bl_attrs.items()]. *)
Definition attrs_row (pal : list color) (x_indices : list nat)
  (token_words : list string) (item : nat * (string * list Q)) : M unit :=
  let '(i, (bl_name, attrs)) := item in
  let rank := Rank.rank attrs in
  palette <- take pal rank ;;
  sns_barplot i attrs palette ;;
  emit (SetXTicksRow i x_indices) ;;
  emit (SetXTickLabelsRow i token_words) ;;
  emit (SetYLabelRow i bl_name).

(** Lines 14-79. *)
Definition visualize_attrs
  (can_write : path -> bool)
  (bl_attrs : list (string * list Q))
  (prediction model_str version_ig sentence : string)
  (token_words : list string)
  (save_str : option string) : M unit :=
  let num_bbs := List.length bl_attrs in
  plt_subplots num_bbs 1 ;;
  emit InsetAxes ;;
  let x_indices := seq 0 (List.length token_words) in
  let pal := color_palette (List.length token_words) in
  for_each (Py.enumerate bl_attrs) (attrs_row pal x_indices token_words) ;;
  emit (Colorbar [0; 1]%Z) ;;
  emit (ColorbarTickLabels ["high rank"%string; "low rank"%string]) ;;
  emit (FigText version_ig model_str) ;;
  emit (Suptitle [sentence; prediction]) ;;
  save_or_show can_write save_str.

(** Lines 82-112: the statistics, their report and the histogram.  The
    function has no [save_str] parameter. *)
Definition embedding_histogram (flattened : list R) : M unit :=
  match Stats.embedding_histogram flattened with
  | inl e => raise e
  | inr s =>
      emit (Print s) ;;
      emit (Subplots 1 1) ;;
      emit (Axvline (Stats.mu s)) ;;
      emit (Axvline (Stats.soft_top s)) ;;
      emit (Axvline (Stats.soft_bot s)) ;;
      emit (Axvline (Stats.top s)) ;;
      emit (Axvline (Stats.bot s)) ;;
      emit (Hist flattened 1000) ;;
      emit TightLayout ;;
      emit Show
  end.

(** Lines 115-142.  [scores] is a dict, given as its items in order. *)
Definition visualize_ablation_scores
  (can_write : path -> bool)
  (avg_scores : list (string * list (Q * Q)))
  (model_str ablation_str : string) (num_examples : nat)
  (save_str : option string) : M unit :=
  emit (Subplots 1 1) ;;
  for_each avg_scores
    (fun '(bl_name, scores) =>
       emit (PlotXY (map fst scores) (map snd scores) bl_name)) ;;
  first <- subscript (map snd avg_scores) 0 ;;
  emit (SetXTicks (map fst first)) ;;
  emit (SetXLabel "top k of tokens masked") ;;
  emit (SetYLabel ablation_str) ;;
  emit Legend ;;
  emit (Suptitle [model_str; ablation_str]) ;;
  save_or_show can_write save_str.

(** Lines 145-160.  The function has no [save_str] parameter: it always
    saves under the same name and then shows the figure. *)
Definition visualize_embedding_space
  (can_write : path -> bool)
  (word_emb : list embedding)
  (pca : list embedding -> list point)
  (interesting_embs : list (string * embedding)) : M unit :=
  emit (Subplots 1 1) ;;
  let word_emb := pca word_emb in
  emit (Scatter word_emb) ;;
  for_each interesting_embs
    (fun '(word, emb) =>
       let emb := pca [emb] in
       emit (AnnotateArr word emb)) ;;
  emit (SetXLabel "1st PCA dimension") ;;
  emit (SetYLabel "2nd PCA dimension") ;;
  emit (Title []) ;;
  plt_savefig can_write (Path "figures/pca_embedding_space.png") ;;
  emit Show.

(** [word != last_word], where [last_word] starts as [None]. *)
Definition word_differs (word : string) (last_word : option string) : bool :=
  match last_word with
  | None => true
  | Some w => negb (String.eqb word w)
  end.

(** Lines 208-212 and 253-257: the loop body run over
    [enumerate(words)], threading [last_word]. *)
Fixpoint annotate_loop (pts : list point) (last_word : option string)
  (items : list (nat * string)) : M unit :=
  match items with
  | [] => ret tt
  | (i, word) :: rest =>
      if word_differs word last_word then
        xy <- subscript pts (Z.of_nat i) ;;
        emit (Annotate word xy) ;;
        annotate_loop pts (Some word) rest
      else annotate_loop pts last_word rest
  end.

Definition annotate_words (pts : list point) (words : list string) : M unit :=
  annotate_loop pts None (Py.enumerate words).

(** [zip] of three sequences. *)
Fixpoint zip3 {A B C : Type} (a : list A) (b : list B) (c : list C)
  : list (A * B * C) :=
  match a, b, c with
  | x :: a', y :: b', z :: c' => (x, y, z) :: zip3 a' b' c'
  | _, _, _ => []
  end.

(** Lines 163-225. *)
Definition visualize_word_paths
  (can_write : path -> bool)
  (word_path_emb word_path_discretized_emb : list (list embedding))
  (word_path : list (list string))
  (cloud_emb : list embedding)
  (pca : list embedding -> list point)
  (model_str version_ig : string)
  (save_str : option string) : M unit :=
  emit (Subplots 1 1) ;;
  let cloud_pca := pca cloud_emb in
  emit (Scatter cloud_pca) ;;
  for_each (zip3 word_path_emb word_path_discretized_emb word_path)
    (fun '(path, disc_path, words) =>
       let path_pca := pca path in
       let disc_path_pca := pca disc_path in
       last <- subscript words (-1) ;;
       emit (PlotLine path_pca (last ++ ": Actual interpolation")) ;;
       last <- subscript words (-1) ;;
       emit (PlotLine disc_path_pca (last ++ ": Discretized interpolation")) ;;
       annotate_words disc_path_pca words) ;;
  emit Legend ;;
  emit (Title [version_ig; model_str]) ;;
  emit (SetXLabel "1st PCA dimension") ;;
  emit (SetYLabel "2nd PCA dimension") ;;
  emit TightLayout ;;
  save_or_show can_write save_str.

(** Lines 228-263. *)
Definition visualize_word_path
  (can_write : path -> bool)
  (word_path_emb word_path_discretized_emb : list embedding)
  (word_path : list string)
  (pca : list embedding -> list point)
  (model_str version_ig : string)
  (save_str : option string) : M unit :=
  emit (Subplots 1 1) ;;
  let word_path_emb := pca word_path_emb in
  let word_path_discretized_emb := pca word_path_discretized_emb in
  emit (PlotLine word_path_emb "Actual interpolation") ;;
  emit (PlotLine word_path_discretized_emb "Discretized interpolation") ;;
  emit Legend ;;
  emit (Title [version_ig; model_str]) ;;
  emit (SetXLabel "1st PCA dimension") ;;
  emit (SetYLabel "2nd PCA dimension") ;;
  annotate_words word_path_discretized_emb word_path ;;
  save_or_show can_write save_str.

(** [description[i] = v] on a Python list. *)
Definition setitem {A : Type} (a : list A) (i : Z) (v : A) : M (list A) :=
  let n := Z.of_nat (List.length a) in
  let j := if (0 <=? i)%Z then i else (n + i)%Z in
  if ((0 <=? j) && (j <? n))%Z
  then ret (firstn (Z.to_nat j) a ++ v :: skipn (S (Z.to_nat j)) a)
  else raise Py.IndexError.

(** The transpose of rows of equal length [ncols]. *)
Definition transpose (ncols : nat) (rows : list (list string))
  : list (list string) :=
  map (fun j => map (fun row => nth j row EmptyString) rows) (seq 0 ncols).

(** Do all rows have the length of the first one? *)
Definition rectangular (rows : list (list string)) : bool :=
  match rows with
  | [] => true
  | row :: rows' =>
      forallb (fun r => (List.length r =? List.length row)%nat) rows'
  end.

(** [np.asarray(rows).T[::-1, :]]: rows of one length form a
    two-dimensional array, which is transposed and reversed along its
    first axis.  Rows of different lengths form no such array and the
    expression raises ([ValueError] in [np.asarray]; numpy versions that
    still build an array of lists raise [IndexError] at the subscript). *)
Definition np_asarray_T_reversed (rows : list (list string))
  : M (list (list string)) :=
  if rectangular rows
  then ret (rev (transpose (List.length (hd [] rows)) rows))
  else raise Py.ValueError.

(** Lines 266-295. *)
Definition visualize_word_path_table
  (can_write : path -> bool)
  (word_path : list (list string))
  (model_str version_ig baseline_str : string)
  (save_str : option string) : M unit :=
  first <- subscript word_path 0 ;;
  let description := repeat EmptyString (List.length first) in
  description <- setitem description 0 "BASELINE"%string ;;
  description <- setitem description (-1) "ORIGINAL"%string ;;
  let word_path := description :: word_path in
  np_word_path <- np_asarray_T_reversed word_path ;;
  emit (Subplots 1 1) ;;
  emit AxisOff ;;
  emit (Table np_word_path) ;;
  emit TableFont ;;
  emit (TableCellRed 0 0) ;;
  first <- subscript word_path 0 ;;
  emit (TableCellRed (List.length first - 1) 0) ;;
  emit (Title [version_ig; model_str; baseline_str]) ;;
  save_or_show can_write save_str.





(** Events that persist or display the figure. *)
Definition is_savefig (ev : event) : bool :=
  match ev with SaveFig _ => true | _ => false end.

Definition is_show (ev : event) : bool :=
  match ev with Show => true | _ => false end.

(** What a trace did with the figure: its [savefig] and [show] calls. *)
Definition is_output (ev : event) : bool := is_savefig ev || is_show ev.

Definition outputs (tr : list event) : list event := filter is_output tr.

(** A computation whose trace neither saves nor shows. *)
Definition quiet {A : Type} (m : M A) : Prop := outputs (fst m) = [].


(** The fixed target of [visualize_embedding_space]. *)
Definition embedding_space_target : path :=
  Path "figures/pca_embedding_space.png".

(** The calls every run of [visualize_word_path] makes first. *)
Definition word_path_lines (pca : list embedding -> list point)
  (word_path_emb word_path_discretized_emb : list embedding)
  (model_str version_ig : string) : list event :=
  [Subplots 1 1;
   PlotLine (pca word_path_emb) "Actual interpolation";
   PlotLine (pca word_path_discretized_emb) "Discretized interpolation";
   Legend;
   Title [version_ig; model_str];
   SetXLabel "1st PCA dimension";
   SetYLabel "2nd PCA dimension"].

(** The file name handed to [savefig] for a given [save_str]. *)
Definition png_name (name : string) : string :=
  if negb (Py.endswith name ".png") then (name ++ ".png")%string else name.

(** The target of [savefig] for a given [save_str]. *)
Definition save_target (name : string) : path :=
  PathDiv (Path "figures") (Path (png_name name)).

(** The value of [last_word] after the labels [pre] were visited. *)
Definition last_word_after (pre : list string) : option string :=
  match pre with
  | [] => None
  | _ :: _ => Some (last pre EmptyString)
  end.

(** The annotation set as the specification words it: the pairs
    [(index, label)] with [index == 0] or
    [label[index] != label[index - 1]], in input order. *)
Definition annotated (words : list string) (i : nat) (label : string) : bool :=
  (i =? 0)%nat || negb (String.eqb label (nth (i - 1) words EmptyString)).

Definition annotation_set (words : list string) : list (nat * string) :=
  filter (fun '(i, w) => annotated words i w) (Py.enumerate words).


(** Does the path have a point for this pair's index? *)
Definition has_point (pts : list point) (iw : nat * string) : bool :=
  (fst iw <? List.length pts)%nat.

(** A computation that, if it raises, has neither saved nor shown. *)
Definition silent_on_error {A : Type} (m : M A) : Prop :=
  forall e, snd m = inl e -> outputs (fst m) = [].

(** The call [ax.annotate(word, (pts[i, 0], pts[i, 1]))]. *)
Definition annotation (pts : list point) (iw : nat * string) : event :=
  Annotate (snd iw) (nth (fst iw) pts (0%Q, 0%Q)).

(** What one aligned path of [visualize_word_paths] draws: two lines
    labelled with the last word, then the annotations. *)
Definition path_drawing (pca : list embedding -> list point)
  (item : list embedding * list embedding * list string) : list event :=
  let '(path, disc_path, words) := item in
  [PlotLine (pca path)
            (last words EmptyString ++ ": Actual interpolation");
   PlotLine (pca disc_path)
            (last words EmptyString ++ ": Discretized interpolation")]
  ++ map (annotation (pca disc_path)) (annotation_set words).

(** Is a path of [visualize_word_paths] well formed: at least one label
    and a point for every label. *)
Definition path_aligned (pca : list embedding -> list point)
  (item : list embedding * list embedding * list string) : Prop :=
  let '(_, disc_path, words) := item in
  words <> [] /\ (List.length words <= List.length (pca disc_path))%nat.

End Plot.

(* ================================================================= *)
(** ** Concrete inputs used by the examples *)

Module Inputs.

(** The five scores of the end-to-end scenario. *)
Definition five_scores : list Q := [1#10; 9#10; 9#10; 2#10; 5#100].

(** 128 pairwise different scores [0, 1, ..., 127]. *)
Definition scores_0_to_127 : list Q :=
  map (fun n => inject_Z (Z.of_nat n)) (seq 0 128).

(** 128 equal scores. *)
Definition tied_128 : list Q := repeat (1#2) 128.

(** One baseline, two tokens, two different scores. *)
Definition two_scores : list (string * list Q) :=
  [("pad"%string, [2#10; 1#10])].

Definition two_tokens : list string := ["good"%string; "movie"%string].

(** Three values, out of order; one value. *)
Definition three_values : list R := [3; 1; 2]%R.

Definition one_value : list R := [1]%R.

(** 501 values, the shortest input with one outlier per side. *)
Definition many_values : list R := repeat 0%R 501.

(** A label path with a repeated run, and three projected points. *)
Definition pad_pad_good : list string :=
  ["PAD"%string; "PAD"%string; "good"%string].

Definition three_points : list Plot.point :=
  [(0%Q, 0%Q); (1#2, 1#3); (1%Q, 1%Q)].

(** Three tokens and one baseline with only two scores. *)
Definition three_tokens : list string :=
  ["a"%string; "good"%string; "movie"%string].

Definition short_scores : list (string * list Q) :=
  [("pad"%string, [5#10; 2#10])].

(** Embedding rows of dimension 3. *)
Definition three_rows : list Plot.embedding :=
  [[0%Q; 0%Q; 7%Q]; [1#2; 1#3; 7%Q]; [1%Q; 1%Q; 7%Q]].

Definition two_rows : list Plot.embedding :=
  [[0%Q; 0%Q; 7%Q]; [1%Q; 1%Q; 7%Q]].


Definition three_labels : list string :=
  ["PAD"%string; "fine"%string; "good"%string].

(** Two word paths of three steps each. *)
Definition two_word_paths : list (list string) :=
  [["PAD"%string; "fine"%string; "good"%string];
   ["PAD"%string; "PAD"%string; "movie"%string]].

(** A file system in which every target can be written, and one in which
    none can. *)
Definition writable (target : Plot.path) : bool := true.

Definition read_only (target : Plot.path) : bool := false.

(** A projector that keeps the first two coordinates. *)
Definition first_two (rows : list Plot.embedding) : list Plot.point :=
  map (fun row => (nth 0 row 0%Q, nth 1 row 0%Q)) rows.

End Inputs.

(* ================================================================= *)
(** ** Facts about the primitives *)

Lemma astype_int8_range (z : Z) :
  (-128 <= Py.astype_int8 z <= 127)%Z.
Proof.
  unfold Py.astype_int8.
  pose proof (Z.mod_pos_bound (z + 128) 256 eq_refl). lia.
Qed.

Lemma astype_int8_small (z : Z) :
  (-128 <= z <= 127)%Z -> Py.astype_int8 z = z.
Proof.
  intros Hz. unfold Py.astype_int8.
  rewrite Z.mod_small by lia. lia.
Qed.

Lemma astype_int8_faithful_iff (z : Z) :
  Py.astype_int8 z = z <-> (-128 <= z <= 127)%Z.
Proof.
  split.
  - intros <-. apply astype_int8_range.
  - apply astype_int8_small.
Qed.

(* ================================================================= *)
(** ** The ranking is competition ranking before the cast *)

Section RankFacts.

Import Rank.

Lemma Qltb_lt (x y : Q) : Qltb x y = true <-> (x < y)%Q.
Proof.
  unfold Qltb. rewrite negb_true_iff.
  split.
  - intros Hf. apply Qnot_le_lt. intros Hle.
    apply Qle_bool_iff in Hle. congruence.
  - intros Hlt. destruct (Qle_bool y x) eqn:E; [|reflexivity].
    apply Qle_bool_iff in E. exfalso. exact (Qlt_not_le _ _ Hlt E).
Qed.

Lemma Qltb_false_le (x y : Q) : Qltb x y = false <-> (y <= x)%Q.
Proof.
  unfold Qltb. rewrite negb_false_iff. apply Qle_bool_iff.
Qed.

Lemma count_greater_cons (x y : Q) (l : list Q) :
  count_greater x (y :: l) =
  ((if Qltb x y then 1 else 0) + count_greater x l)%nat.
Proof.
  unfold count_greater. simpl. destruct (Qltb x y); reflexivity.
Qed.

Lemma count_greater_perm (x : Q) (l l' : list Q) :
  Permutation l l' -> count_greater x l = count_greater x l'.
Proof.
  induction 1 as [| a l l' _ IH | a b l | l l' l'' _ IH1 _ IH2].
  - reflexivity.
  - rewrite !count_greater_cons. now rewrite IH.
  - rewrite !count_greater_cons. lia.
  - now rewrite IH1.
Qed.

Lemma count_greater_le_length (x : Q) (l : list Q) :
  (count_greater x l <= List.length l)%nat.
Proof. unfold count_greater. apply filter_length_le. Qed.

(** Below an entry equal to [x], a descending list holds nothing greater. *)
Lemma count_greater_bounded (x : Q) (l : list Q) :
  Forall (fun y => (y <= x)%Q) l -> count_greater x l = 0%nat.
Proof.
  induction 1 as [| y l Hy _ IH].
  - reflexivity.
  - rewrite count_greater_cons, IH.
    apply Qltb_false_le in Hy. now rewrite Hy.
Qed.

Lemma desc_transitive : Transitive (fun x y => is_true (QDescOrder.leb x y)).
Proof.
  intros x y z. unfold QDescOrder.leb, is_true.
  rewrite !Qle_bool_iff. intros Hyx Hzy. exact (Qle_trans _ _ _ Hzy Hyx).
Qed.

(** In a descending list the first position of [x] counts the entries
    strictly greater than [x]. *)
Lemma first_index_descending (x : Q) (l : list Q) :
  StronglySorted (fun a b => is_true (QDescOrder.leb a b)) l ->
  In x l ->
  first_index x l = count_greater x l.
Proof.
  induction 1 as [| y l Hs IH Hall]; intros Hin.
  - destruct Hin.
  - simpl. rewrite count_greater_cons.
    destruct (Qeq_bool y x) eqn:Eyx.
    + apply Qeq_bool_iff in Eyx.
      assert (Hxy : Qltb x y = false).
      { apply Qltb_false_le. rewrite Eyx. apply Qle_refl. }
      rewrite Hxy. simpl. symmetry. apply count_greater_bounded.
      eapply Forall_impl; [| exact Hall].
      intros a Ha. unfold QDescOrder.leb, is_true in Ha.
      apply Qle_bool_iff in Ha. rewrite <- Eyx. exact Ha.
    + destruct Hin as [-> | Hin].
      { rewrite Qeq_bool_refl in Eyx. discriminate. }
      assert (Hxy : Qltb x y = true).
      { apply Qltb_lt.
        rewrite Forall_forall in Hall. specialize (Hall x Hin).
        unfold QDescOrder.leb, is_true in Hall. apply Qle_bool_iff in Hall.
        apply Qle_lt_or_eq in Hall. destruct Hall as [Hlt | Heq]; [exact Hlt|].
        exfalso. symmetry in Heq. apply Qeq_bool_iff in Heq. congruence. }
      rewrite Hxy. simpl. f_equal. exact (IH Hin).
Qed.

Lemma rank_min_desc_competition (attrs : list Q) :
  rank_min_desc attrs = competition_rank attrs.
Proof.
  unfold rank_min_desc, competition_rank.
  apply map_ext_in. intros x Hx.
  rewrite first_index_descending.
  - rewrite <- (count_greater_perm x (QDescSort.Permuted_sort attrs)). lia.
  - apply QDescSort.StronglySorted_sort. exact desc_transitive.
  - eapply Permutation_in; [apply QDescSort.Permuted_sort | exact Hx].
Qed.

End RankFacts.

Lemma rank_is_cast_of_competition (attrs : list Q) :
  Rank.rank attrs = map Py.astype_int8 (Rank.competition_rank attrs).
Proof. unfold Rank.rank. now rewrite rank_min_desc_competition. Qed.

Lemma competition_rank_bounds (attrs : list Q) :
  Forall (fun r => (1 <= r <= Z.of_nat (List.length attrs))%Z)
         (Rank.competition_rank attrs).
Proof.
  unfold Rank.competition_rank. apply Forall_forall.
  intros r Hr. apply in_map_iff in Hr. destruct Hr as [x [<- Hx]].
  assert (Hlt : (Rank.count_greater x attrs < List.length attrs)%nat).
  { apply in_split in Hx. destruct Hx as [l1 [l2 ->]].
    rewrite (count_greater_perm x (Permutation_sym (Permutation_middle l1 l2 x))).
    rewrite count_greater_cons.
    assert (Hxx : Rank.Qltb x x = false) by (apply Qltb_false_le, Qle_refl).
    rewrite Hxx. simpl.
    pose proof (count_greater_le_length x (l1 ++ l2)) as Hle.
    rewrite length_app in *. simpl. lia. }
  lia.
Qed.

Lemma rank_faithful_short (attrs : list Q) :
  (List.length attrs <= 127)%nat ->
  Rank.rank attrs = Rank.competition_rank attrs.
Proof.
  intros Hlen. rewrite rank_is_cast_of_competition.
  rewrite <- (map_id (Rank.competition_rank attrs)) at 2.
  apply map_ext_in. intros r Hr.
  pose proof (competition_rank_bounds attrs) as Hb.
  rewrite Forall_forall in Hb. specialize (Hb r Hr).
  apply astype_int8_small. lia.
Qed.

(* ================================================================= *)
(** ** Claims about the rank vector *)

(** C1 (as amended).  For every score vector of at most 127 entries the
    rank vector of [visualize_attrs] is descending competition ranking,
    [rank[i] = 1 + #{j | score[j] > score[i]}]; the scores
    [0.1, 0.9, 0.9, 0.2, 0.05] are ranked [4, 1, 1, 3, 5]. *)
Theorem rank_competition_ranking (attrs : list Q)
  (Hlen : (List.length attrs <= 127)%nat) :
  Rank.rank attrs =
    map (fun x => (1 + Z.of_nat (Rank.count_greater x attrs))%Z) attrs
  /\ Rank.rank Inputs.five_scores = [4; 1; 1; 3; 5]%Z.
Proof.
  split.
  - exact (rank_faithful_short attrs Hlen).
  - vm_compute. reflexivity.
Qed.

Lemma rank_competition_ranking_witness :
  Rank.rank Inputs.five_scores =
    map (fun x => (1 + Z.of_nat (Rank.count_greater x Inputs.five_scores))%Z)
        Inputs.five_scores.
Proof.
  apply (rank_competition_ranking Inputs.five_scores).
  simpl. lia.
Defined.

(** C1 fails as stated for longer vectors: with the 128 scores
    [0, 1, ..., 127] the score [0] has 127 greater scores, so its
    competition rank is 128, but the stored rank is [-128]. *)
Lemma rank_competition_ranking_fails_at_128 :
  nth 0 (Rank.rank Inputs.scores_0_to_127) 0%Z = (-128)%Z
  /\ nth 0 (Rank.competition_rank Inputs.scores_0_to_127) 0%Z = 128%Z
  /\ Rank.rank Inputs.scores_0_to_127
     <> map (fun x => (1 + Z.of_nat (Rank.count_greater x Inputs.scores_0_to_127))%Z)
            Inputs.scores_0_to_127.
Proof.
  assert (H1 : nth 0 (Rank.rank Inputs.scores_0_to_127) 0%Z = (-128)%Z)
    by (vm_compute; reflexivity).
  assert (H2 : nth 0 (Rank.competition_rank Inputs.scores_0_to_127) 0%Z = 128%Z)
    by (vm_compute; reflexivity).
  split; [exact H1 | split; [exact H2 |]].
  intros Heq. fold (Rank.competition_rank Inputs.scores_0_to_127) in Heq.
  rewrite Heq in H1. rewrite H1 in H2. discriminate.
Qed.

(* ================================================================= *)
(** ** Where the 8-bit cast changes a rank *)

Section WrapFacts.

Import Rank.

Lemma count_equal_cons (x y : Q) (l : list Q) :
  count_equal x (y :: l) =
  ((if Qeq_bool x y then 1 else 0) + count_equal x l)%nat.
Proof.
  unfold count_equal. simpl. destruct (Qeq_bool x y); reflexivity.
Qed.

Lemma least_score_exists (attrs : list Q) :
  attrs <> [] ->
  exists m, In m attrs /\ Forall (fun y => (m <= y)%Q) attrs.
Proof.
  induction attrs as [| a l IH]; intros Hne; [congruence|].
  destruct l as [| b l'].
  - exists a. split; [now left|]. constructor; [apply Qle_refl | constructor].
  - destruct IH as [m [Hin Hall]]; [discriminate|].
    destruct (Qlt_le_dec a m) as [Ham | Hma].
    + exists a. split; [now left|].
      constructor; [apply Qle_refl|].
      eapply Forall_impl; [| exact Hall].
      intros y Hy. simpl in Hy. apply Qlt_le_weak.
      exact (Qlt_le_trans _ _ _ Ham Hy).
    + exists m. split; [now right|]. constructor; assumption.
Qed.

Lemma count_greater_plus_equal (m : Q) (attrs : list Q) :
  Forall (fun y => (m <= y)%Q) attrs ->
  (count_greater m attrs + count_equal m attrs = List.length attrs)%nat.
Proof.
  induction 1 as [| y l Hy _ IH]; [reflexivity|].
  rewrite count_greater_cons, count_equal_cons. simpl List.length.
  destruct (Qeq_bool m y) eqn:E.
  - apply Qeq_bool_iff in E.
    assert (Hlt : Qltb m y = false).
    { apply Qltb_false_le. rewrite E. apply Qle_refl. }
    rewrite Hlt. lia.
  - assert (Hlt : Qltb m y = true).
    { apply Qltb_lt. apply Qle_lt_or_eq in Hy.
      destruct Hy as [Hy | Hy]; [exact Hy|].
      apply Qeq_bool_iff in Hy. congruence. }
    rewrite Hlt. lia.
Qed.

Lemma count_equal_distinct (m : Q) (attrs : list Q) :
  pairwise_distinct attrs -> (count_equal m attrs <= 1)%nat.
Proof.
  unfold pairwise_distinct.
  induction 1 as [| a l Hal _ IH]; [unfold count_equal; simpl; lia|].
  rewrite count_equal_cons.
  destruct (Qeq_bool m a) eqn:E; [| simpl; exact IH].
  apply Qeq_bool_iff in E.
  assert (H0 : count_equal m l = 0%nat).
  { clear IH. induction Hal as [| b l' Hab _ IHl]; [reflexivity|].
    rewrite count_equal_cons, IHl.
    destruct (Qeq_bool m b) eqn:E'; [| reflexivity].
    apply Qeq_bool_iff in E'. exfalso. apply Hab.
    rewrite <- E, <- E'. reflexivity. }
  rewrite H0. lia.
Qed.

(** With pairwise different scores the least score has every other score
    above it. *)
Lemma distinct_scores_reach_rank_length (attrs : list Q) :
  pairwise_distinct attrs ->
  attrs <> [] ->
  exists j y, nth_error attrs j = Some y
              /\ S (count_greater y attrs) = List.length attrs.
Proof.
  intros Hd Hne.
  destruct (least_score_exists Hne) as [m [Hin Hall]].
  destruct (In_nth_error _ _ Hin) as [j Hj].
  exists j, m. split; [exact Hj|].
  pose proof (count_greater_plus_equal Hall) as Hsum.
  pose proof (count_equal_distinct m Hd) as Hle.
  assert (Hge : (1 <= count_equal m attrs)%nat).
  { apply in_split in Hin. destruct Hin as [l1 [l2 ->]].
    clear. induction l1 as [| b l1 IH].
    - simpl app. rewrite count_equal_cons, Qeq_bool_refl. lia.
    - simpl app. rewrite count_equal_cons. lia. }
  lia.
Qed.

Lemma nth_error_rank (attrs : list Q) (i : nat) (x : Q) :
  nth_error attrs i = Some x ->
  nth_error (rank attrs) i =
    Some (Py.astype_int8 (1 + Z.of_nat (count_greater x attrs))).
Proof.
  intros Hi. rewrite rank_is_cast_of_competition.
  unfold competition_rank. rewrite map_map.
  rewrite nth_error_map, Hi. reflexivity.
Qed.

Lemma astype_int8_wraps_down (z : Z) :
  (128 <= z)%Z -> (Py.astype_int8 z < z)%Z.
Proof.
  intros Hz. pose proof (astype_int8_range z). lia.
Qed.

End WrapFacts.

(** C9 (as amended).  The rank vector is cast to a signed 8-bit integer:
    the stored rank of a score is the wrap-around of its competition rank.
    The stored rank is the competition rank exactly when fewer than 127
    scores are strictly greater, hence always for vectors of at most 127
    tokens; from 127 greater scores on the stored rank is smaller than the
    competition rank.  A vector of more than 127 pairwise different scores
    always has such an entry. *)
Theorem rank_int8_wraps_beyond_127 (attrs : list Q) (i : nat) (x : Q)
  (Hi : nth_error attrs i = Some x) :
  let r := (1 + Z.of_nat (Rank.count_greater x attrs))%Z in
  nth_error (Rank.rank attrs) i = Some (Py.astype_int8 r)
  /\ (Py.astype_int8 r = r <-> (Rank.count_greater x attrs < 127)%nat)
  /\ ((List.length attrs <= 127)%nat -> Py.astype_int8 r = r)
  /\ ((127 <= Rank.count_greater x attrs)%nat -> (Py.astype_int8 r < r)%Z)
  /\ (Rank.pairwise_distinct attrs -> (127 < List.length attrs)%nat ->
      exists j y, nth_error attrs j = Some y
                  /\ (127 <= Rank.count_greater y attrs)%nat).
Proof.
  intros r. subst r.
  assert (Hx : (Rank.count_greater x attrs < List.length attrs)%nat).
  { pose proof (competition_rank_bounds attrs) as Hb.
    rewrite Forall_forall in Hb.
    specialize (Hb (1 + Z.of_nat (Rank.count_greater x attrs))%Z).
    assert (Hin : In (1 + Z.of_nat (Rank.count_greater x attrs))%Z
                     (Rank.competition_rank attrs)).
    { unfold Rank.competition_rank. apply in_map_iff. exists x.
      split; [reflexivity|]. eapply nth_error_In; exact Hi. }
    specialize (Hb Hin). lia. }
  split; [exact (nth_error_rank attrs i Hi)|].
  split; [rewrite astype_int8_faithful_iff; lia|].
  split; [intros Hlen; apply astype_int8_small; lia|].
  split; [intros Hc; apply astype_int8_wraps_down; lia|].
  intros Hd Hlen.
  destruct (@distinct_scores_reach_rank_length attrs Hd) as [j [y [Hj Hy]]].
  - intros ->. simpl in Hlen. lia.
  - exists j, y. split; [exact Hj | lia].
Qed.

Lemma rank_int8_wraps_beyond_127_witness :
  nth_error (Rank.rank Inputs.scores_0_to_127) 0 =
    Some (Py.astype_int8
            (1 + Z.of_nat (Rank.count_greater (inject_Z 0) Inputs.scores_0_to_127)))
  /\ (Py.astype_int8
        (1 + Z.of_nat (Rank.count_greater (inject_Z 0) Inputs.scores_0_to_127))
      < 1 + Z.of_nat (Rank.count_greater (inject_Z 0) Inputs.scores_0_to_127))%Z.
Proof.
  pose proof (@rank_int8_wraps_beyond_127 Inputs.scores_0_to_127 0%nat
                (inject_Z 0) eq_refl) as H.
  cbv zeta in H.
  destruct H as [H1 [_ [_ [H4 _]]]].
  split; [exact H1|].
  apply H4. apply Nat.leb_le. vm_compute. reflexivity.
Defined.

(** C9 fails as stated: 128 equal scores are more than 127 tokens, every
    one of them has rank 1 and no stored rank differs from the competition
    rank. *)
Lemma rank_no_wrap_when_tied :
  (127 < List.length Inputs.tied_128)%nat
  /\ Rank.rank Inputs.tied_128 = Rank.competition_rank Inputs.tied_128
  /\ Rank.rank Inputs.tied_128 = repeat 1%Z 128
  /\ ~ (exists i, nth i (Rank.rank Inputs.tied_128) 0%Z
                  <> nth i (Rank.competition_rank Inputs.tied_128) 0%Z).
Proof.
  assert (H : Rank.rank Inputs.tied_128 = Rank.competition_rank Inputs.tied_128)
    by (vm_compute; reflexivity).
  split; [vm_compute; lia|].
  split; [exact H|].
  split; [vm_compute; reflexivity|].
  intros [i Hi]. apply Hi. now rewrite H.
Qed.

(* ================================================================= *)
(** ** The palette lookup *)

(** C4 (the code differs).  [np.array(pal)[rank]] uses the rank itself as
    the subscript.  With two tokens and two different scores the ranks are
    [1, 2] and the palette has entries 0 and 1: the lookup raises
    [IndexError] before the first bar chart is drawn.  Where the lookup
    succeeds, rank 1 selects palette entry 1, not entry 0. *)
Theorem palette_lookup_uses_rank_as_index :
  Rank.rank [2#10; 1#10] = [1; 2]%Z
  /\ (forall can_write,
        Plot.visualize_attrs can_write Inputs.two_scores "positive" "bert"
          "ig" "good movie" Inputs.two_tokens None
        = ([Plot.Subplots 1 1; Plot.InsetAxes], inl Py.IndexError))
  /\ Plot.take (Plot.color_palette 3) (Rank.rank [9#10; 1#10; 1#10])
     = ([], inr [1; 2; 2]%nat).
Proof.
  split; [vm_compute; reflexivity|].
  split; [intros can_write|]; vm_compute; reflexivity.
Qed.

(* ================================================================= *)
(** ** Facts about the distribution statistics *)

Section StatsFacts.

Import Stats.

Lemma n_outliers_small (len : nat) :
  (len <= 500)%nat -> n_outliers len = 0%Z.
Proof.
  intros H. unfold n_outliers, n_outliers_exact, round_half_even_div.
  rewrite Z.div_small, Z.mod_small by lia.
  destruct (2 * Z.of_nat len <? 1000)%Z eqn:E1; [reflexivity|].
  destruct (1000 <? 2 * Z.of_nat len)%Z eqn:E2; [|reflexivity].
  apply Z.ltb_lt in E2. lia.
Qed.

Lemma n_outliers_nearest (len : nat) :
  (1000 * n_outliers len - 500 <= Z.of_nat len <= 1000 * n_outliers len + 500)%Z.
Proof.
  unfold n_outliers, n_outliers_exact, round_half_even_div.
  set (n := Z.of_nat len).
  pose proof (Z.div_mod n 1000 ltac:(lia)) as Hdm.
  pose proof (Z.mod_pos_bound n 1000 ltac:(lia)) as Hr.
  destruct (2 * (n mod 1000) <? 1000)%Z eqn:E1.
  - apply Z.ltb_lt in E1. lia.
  - apply Z.ltb_ge in E1.
    destruct (1000 <? 2 * (n mod 1000))%Z eqn:E2.
    + lia.
    + apply Z.ltb_ge in E2. destruct (Z.even (n / 1000)); lia.
Qed.

Lemma n_outliers_range (len : nat) :
  (1 <= len)%nat -> (0 <= n_outliers len < Z.of_nat len)%Z.
Proof.
  intros Hlen. unfold n_outliers, n_outliers_exact, round_half_even_div.
  set (n := Z.of_nat len). assert (Hn : (1 <= n)%Z) by (subst n; lia).
  pose proof (Z.div_mod n 1000 ltac:(lia)) as Hdm.
  pose proof (Z.mod_pos_bound n 1000 ltac:(lia)) as Hr.
  assert (Hq : (0 <= n / 1000)%Z) by (apply Z.div_pos; lia).
  destruct (2 * (n mod 1000) <? 1000)%Z eqn:E1; [lia|].
  apply Z.ltb_ge in E1.
  destruct (1000 <? 2 * (n mod 1000))%Z eqn:E2; [lia|].
  destruct (Z.even (n / 1000)); lia.
Qed.

Lemma n_outliers_positive (len : nat) :
  (500 < len)%nat -> (1 <= n_outliers len)%Z.
Proof.
  intros Hlen. unfold n_outliers, n_outliers_exact, round_half_even_div.
  set (n := Z.of_nat len). assert (Hn : (500 < n)%Z) by (subst n; lia).
  pose proof (Z.div_mod n 1000 ltac:(lia)) as Hdm.
  pose proof (Z.mod_pos_bound n 1000 ltac:(lia)) as Hr.
  assert (Hq : (0 <= n / 1000)%Z) by (apply Z.div_pos; lia).
  destruct (2 * (n mod 1000) <? 1000)%Z eqn:E1.
  - apply Z.ltb_lt in E1. lia.
  - destruct (1000 <? 2 * (n mod 1000))%Z eqn:E2; [lia|].
    apply Z.ltb_ge in E1. apply Z.ltb_ge in E2.
    destruct (Z.even (n / 1000)) eqn:Ev; [| lia].
    assert (Hq0 : (n / 1000 <> 0)%Z) by lia. lia.
Qed.

Lemma binary64_agrees_range_spec (count : nat) (from len : Z) :
  binary64_agrees_range count from = true ->
  (from <= len < from + Z.of_nat count)%Z ->
  binary64_agrees len = true.
Proof.
  revert from. induction count as [| count IH]; intros from H Hlen; [lia|].
  cbn [binary64_agrees_range] in H. apply andb_prop in H.
  destruct H as [H0 H1].
  destruct (Z.eq_dec len from) as [-> | Hne]; [exact H0|].
  apply (IH (from + 1)%Z); [exact H1 | lia].
Qed.

Lemma binary64_agrees_checked :
  binary64_agrees_range (Z.to_nat 10000) 0 = true.
Proof. vm_cast_no_check (@eq_refl bool true). Qed.

(** The binary64 product [len * 0.001], rounded as Python rounds, is the
    integer of [n_outliers] on every length below 10000. *)
Lemma n_outliers_binary64_agrees (len : nat) :
  (Z.of_nat len < 10000)%Z ->
  n_outliers_binary64 (Z.of_nat len) = Some (n_outliers len).
Proof.
  intros Hlen.
  assert (H : binary64_agrees (Z.of_nat len) = true).
  { apply (@binary64_agrees_range_spec _ _ (Z.of_nat len)
             binary64_agrees_checked). lia. }
  unfold binary64_agrees in H. unfold n_outliers.
  destruct (n_outliers_binary64 (Z.of_nat len)) as [k|]; [|discriminate].
  apply Z.eqb_eq in H. now subst.
Qed.

Lemma getitem_front {A : Type} (a : list A) (i : Z) :
  (0 <= i)%Z -> Py.getitem a i = nth_error a (Z.to_nat i).
Proof.
  intros Hi. unfold Py.getitem.
  destruct (0 <=? i)%Z eqn:E; [reflexivity|].
  apply Z.leb_gt in E. lia.
Qed.

Lemma getitem_back {A : Type} (a : list A) (i : Z) :
  (- Z.of_nat (List.length a) <= i < 0)%Z ->
  Py.getitem a i = nth_error a (List.length a - Z.to_nat (- i)).
Proof.
  intros Hi. unfold Py.getitem.
  destruct (0 <=? i)%Z eqn:E; [apply Z.leb_le in E; lia|].
  destruct (- Z.of_nat (List.length a) <=? i)%Z eqn:E'.
  - f_equal. lia.
  - apply Z.leb_gt in E'. lia.
Qed.

Lemma nth_error_defined {A : Type} (a : list A) (n : nat) :
  (n < List.length a)%nat -> exists x, nth_error a n = Some x.
Proof.
  intros Hn. destruct (nth_error a n) as [x|] eqn:E; [now exists x|].
  apply nth_error_None in E. lia.
Qed.

Lemma np_sort_length (a : list R) :
  List.length (np_sort a) = List.length a.
Proof.
  symmetry. apply Permutation_length. apply RAscSort.Permuted_sort.
Qed.

Lemma asc_transitive : Transitive (fun x y => is_true (RAscOrder.leb x y)).
Proof.
  intros x y z. unfold RAscOrder.leb, is_true.
  destruct (Rle_dec x y), (Rle_dec y z), (Rle_dec x z);
    intros; try reflexivity; try discriminate.
  exfalso. lra.
Qed.

Lemma leb_Rle (x y : R) : is_true (RAscOrder.leb x y) -> (x <= y)%R.
Proof.
  unfold RAscOrder.leb, is_true. destruct (Rle_dec x y); [easy | discriminate].
Qed.

(** [np_sort] returns the same values in ascending order. *)
Lemma np_sort_ascending (a : list R) :
  StronglySorted Rle (np_sort a) /\ Permutation a (np_sort a).
Proof.
  split; [| apply RAscSort.Permuted_sort].
  pose proof (RAscSort.StronglySorted_sort a asc_transitive) as Hs.
  unfold np_sort. induction Hs as [| x l _ IH Hall]; constructor.
  - exact IH.
  - eapply Forall_impl; [| exact Hall]. intros y. apply leb_Rle.
Qed.

(** The first entry of the sorted array is the least value. *)
Lemma np_sort_head_least (a : list R) (h : R) :
  nth_error (np_sort a) 0 = Some h ->
  In h a /\ forall x, In x a -> (h <= x)%R.
Proof.
  intros Hh. destruct (np_sort_ascending a) as [Hs Hp].
  destruct (np_sort a) as [| h' t]; [discriminate|].
  simpl in Hh. injection Hh as ->.
  split.
  - apply (Permutation_in h (Permutation_sym Hp)). now left.
  - intros x Hx. pose proof (Permutation_in x Hp Hx) as Hx'.
    destruct Hx' as [-> | Hx']; [apply Rle_refl|].
    inversion Hs as [| ? ? _ Hall]; subst.
    rewrite Forall_forall in Hall. exact (Hall x Hx').
Qed.

Lemma np_sum_bool_count {A : Type} (f : A -> bool) (l : list A) :
  np_sum_bool (map f l) = Z.of_nat (List.length (filter f l)).
Proof.
  induction l as [| x l IH]; [reflexivity|].
  simpl. rewrite IH. destruct (f x); simpl List.length; simpl Z.b2z; lia.
Qed.

Lemma inside_iff (bot top x : R) :
  inside bot top x = true <-> (bot < x < top)%R.
Proof.
  unfold inside, Rgtb, Rltb. rewrite andb_true_iff.
  destruct (Rlt_dec bot x), (Rlt_dec x top); split; intros [? ?];
    try discriminate; try (split; [reflexivity | reflexivity]);
    try (split; assumption); try contradiction.
Qed.

(** Every non-empty input yields a summary, with the fields as the
    function computes them. *)
Lemma embedding_histogram_fields (flattened : list R) :
  flattened <> [] ->
  exists s,
    embedding_histogram flattened = inr s
    /\ mu s = np_mean flattened
    /\ sigma s = np_std flattened
    /\ top s = (mu s + 258 / 100 * sigma s)%R
    /\ bot s = (mu s - 258 / 100 * sigma s)%R
    /\ count s = np_sum_bool (map (inside (bot s) (top s)) flattened)
    /\ pct s = (100 * IZR (count s) / INR (List.length flattened))%R
    /\ Py.getitem (np_sort flattened) (n_outliers (List.length flattened))
       = Some (soft_top s)
    /\ Py.getitem (np_sort flattened) (- n_outliers (List.length flattened))
       = Some (soft_bot s).
Proof.
  intros Hne.
  assert (Hlen : (1 <= List.length flattened)%nat).
  { destruct flattened; [congruence | simpl; lia]. }
  pose proof (n_outliers_range Hlen) as Hk.
  pose proof (np_sort_length flattened) as Hsl.
  unfold embedding_histogram.
  set (k := n_outliers (List.length flattened)) in *.
  destruct (@nth_error_defined R (np_sort flattened) (Z.to_nat k)) as [st Hst];
    [lia|].
  assert (Hgt : Py.getitem (np_sort flattened) k = Some st).
  { rewrite getitem_front by lia. exact Hst. }
  assert (Hgb : exists sb, Py.getitem (np_sort flattened) (- k) = Some sb).
  { destruct (Z.eq_dec k 0) as [-> | Hk0].
    - exists st. exact Hgt.
    - rewrite getitem_back by lia. apply nth_error_defined. lia. }
  destruct Hgb as [sb Hsb].
  rewrite Hgt, Hsb. eexists. split; [reflexivity|].
  simpl. repeat (split; [reflexivity|]). reflexivity.
Qed.









Lemma np_sort_three_values :
  np_sort Inputs.three_values = [1; 2; 3]%R.
Proof.
  unfold np_sort, Inputs.three_values.
  cbv [RAscSort.sort RAscSort.iter_merge RAscSort.merge_list_to_stack
       RAscSort.merge_stack RAscSort.merge RAscOrder.leb].
  repeat match goal with
         | |- context [Rle_dec ?a ?b] => destruct (Rle_dec a b); try lra
         end.
  reflexivity.
Qed.

(** The summary of a single value. *)
Lemma single_value_summary (x : R) :
  exists s,
    embedding_histogram [x] = inr s
    /\ mu s = x /\ sigma s = 0%R /\ top s = x /\ bot s = x
    /\ soft_top s = x /\ soft_bot s = x
    /\ count s = 0%Z /\ pct s = 0%R.
Proof.
  assert (Hmu : np_mean [x] = x).
  { unfold np_mean, np_total. simpl. field. }
  assert (Hsig : np_std [x] = 0%R).
  { unfold np_std. rewrite Hmu. unfold np_mean, np_total. simpl.
    replace ((Rabs (x - x) * (Rabs (x - x) * 1) + 0) / 1)%R with 0%R.
    - apply sqrt_0.
    - replace (x - x)%R with 0%R by lra. rewrite Rabs_R0. field. }
  destruct (@embedding_histogram_fields [x]) as
    [s [Hs [Hm [Hsg [Ht [Hb [Hc [Hp [Hst Hsb]]]]]]]]]; [discriminate|].
  exists s. split; [exact Hs|].
  rewrite Hmu in Hm. rewrite Hsig in Hsg.
  assert (Htop : top s = x) by (rewrite Ht, Hm, Hsg; lra).
  assert (Hbot : bot s = x) by (rewrite Hb, Hm, Hsg; lra).
  assert (Hcount : count s = 0%Z).
  { rewrite Hc, Htop, Hbot. simpl.
    destruct (inside x x x) eqn:E; [| reflexivity].
    apply inside_iff in E. lra. }
  assert (Hk : n_outliers 1 = 0%Z) by reflexivity.
  simpl List.length in Hst, Hsb. rewrite Hk in Hst, Hsb.
  change (np_sort [x]) with [x] in Hst, Hsb.
  unfold Py.getitem in Hst, Hsb. simpl in Hst, Hsb.
  injection Hst as Hst. injection Hsb as Hsb.
  repeat (split; [first [assumption | congruence] |]).
  rewrite Hp, Hcount. simpl. field.
Qed.

End StatsFacts.

(* ================================================================= *)
(** ** Claims about the distribution statistics *)



(** C6 (as amended).  For a single value [x]: [mu = x], [sigma = 0],
    [top = bot = x], both soft bounds are [x]; no value lies strictly
    between [bot] and [top], so [count = 0] and the reported percentage
    is 0. *)
Theorem embedding_histogram_single_value (x : R) :
  exists s,
    Stats.embedding_histogram [x] = inr s
    /\ Stats.mu s = x /\ Stats.sigma s = 0%R
    /\ Stats.top s = x /\ Stats.bot s = x
    /\ Stats.soft_top s = x /\ Stats.soft_bot s = x
    /\ Stats.count s = 0%Z /\ Stats.pct s = 0%R.
Proof. exact (single_value_summary x). Qed.

(** C6 fails as stated: for the single value 1 the percentage is 0, not
    100. *)
Lemma embedding_histogram_single_value_not_100 :
  exists s,
    Stats.embedding_histogram Inputs.one_value = inr s
    /\ Stats.sigma s = 0%R
    /\ Stats.pct s = 0%R
    /\ Stats.pct s <> 100%R.
Proof.
  destruct (single_value_summary 1) as
    [s [Hs [_ [Hsg [_ [_ [_ [_ [_ Hp]]]]]]]]].
  exists s. split; [exact Hs|]. split; [exact Hsg|]. split; [exact Hp|].
  rewrite Hp. lra.
Qed.

(** C2 (as amended).  For every array of more than 500 values,
    [k = round(0.001 * N)] (halves to even) satisfies [1 <= k < N], the
    array is sorted ascending, [soft_top = sorted[k]] and
    [soft_bot = sorted[N - k]]. *)
Theorem soft_bounds_index_arithmetic (flattened : list R)
  (Hlen : (500 < List.length flattened)%nat) :
  (1 <= Stats.n_outliers (List.length flattened)
     < Z.of_nat (List.length flattened))%Z
  /\ (1000 * Stats.n_outliers (List.length flattened) - 500
      <= Z.of_nat (List.length flattened)
      <= 1000 * Stats.n_outliers (List.length flattened) + 500)%Z
  /\ StronglySorted Rle (Stats.np_sort flattened)
  /\ Permutation flattened (Stats.np_sort flattened)
  /\ exists s,
       Stats.embedding_histogram flattened = inr s
       /\ nth_error (Stats.np_sort flattened)
                    (Z.to_nat (Stats.n_outliers (List.length flattened)))
          = Some (Stats.soft_top s)
       /\ nth_error (Stats.np_sort flattened)
                    (List.length flattened
                     - Z.to_nat (Stats.n_outliers (List.length flattened)))
          = Some (Stats.soft_bot s).
Proof.
  pose proof (n_outliers_positive Hlen) as Hpos.
  assert (Hlen1 : (1 <= List.length flattened)%nat) by lia.
  pose proof (n_outliers_range Hlen1) as Hrange.
  split; [lia|].
  split; [apply n_outliers_nearest|].
  destruct (np_sort_ascending flattened) as [Hsorted Hperm].
  split; [exact Hsorted|]. split; [exact Hperm|].
  destruct (@embedding_histogram_fields flattened) as
    [s [Hs [_ [_ [_ [_ [_ [_ [Hst Hsb]]]]]]]]].
  { intros ->. simpl in Hlen. lia. }
  exists s. split; [exact Hs|].
  rewrite getitem_front in Hst by lia.
  rewrite getitem_back in Hsb by (rewrite np_sort_length; lia).
  rewrite np_sort_length in Hsb.
  rewrite Z.opp_involutive in Hsb.
  split; [exact Hst | exact Hsb].
Qed.

Lemma soft_bounds_index_arithmetic_witness :
  exists s,
    Stats.embedding_histogram Inputs.many_values = inr s
    /\ nth_error (Stats.np_sort Inputs.many_values)
                 (Z.to_nat (Stats.n_outliers (List.length Inputs.many_values)))
       = Some (Stats.soft_top s)
    /\ nth_error (Stats.np_sort Inputs.many_values)
                 (List.length Inputs.many_values
                  - Z.to_nat (Stats.n_outliers (List.length Inputs.many_values)))
       = Some (Stats.soft_bot s).
Proof.
  apply (@soft_bounds_index_arithmetic Inputs.many_values).
  unfold Inputs.many_values. rewrite repeat_length. lia.
Defined.

(** C2 fails as stated when [k = 0]: for the three values [3, 1, 2] the
    sorted array is [1, 2, 3], [k = 0], and [sorted[N - k] = sorted[3]]
    does not exist, while the function returns
    [soft_bot = sorted[-0] = sorted[0] = 1]. *)
Lemma soft_bot_is_not_sorted_N_minus_k :
  Stats.n_outliers (List.length Inputs.three_values) = 0%Z
  /\ Stats.np_sort Inputs.three_values = [1; 2; 3]%R
  /\ Py.getitem (Stats.np_sort Inputs.three_values)
        (Z.of_nat (List.length Inputs.three_values)
         - Stats.n_outliers (List.length Inputs.three_values)) = None
  /\ exists s,
       Stats.embedding_histogram Inputs.three_values = inr s
       /\ Stats.soft_top s = 1%R
       /\ Stats.soft_bot s = 1%R.
Proof.
  assert (Hk : Stats.n_outliers (List.length Inputs.three_values) = 0%Z)
    by reflexivity.
  split; [exact Hk|].
  split; [exact np_sort_three_values|].
  split.
  { rewrite Hk, np_sort_three_values. reflexivity. }
  destruct (@embedding_histogram_fields Inputs.three_values) as
    [s [Hs [_ [_ [_ [_ [_ [_ [Hst Hsb]]]]]]]]].
  { unfold Inputs.three_values. discriminate. }
  exists s. split; [exact Hs|].
  rewrite Hk, np_sort_three_values in Hst, Hsb.
  unfold Py.getitem in Hst, Hsb. simpl in Hst, Hsb.
  injection Hst as Hst. injection Hsb as Hsb.
  split; congruence.
Qed.

(** C10.  For every non-empty array of fewer than 500 values,
    [k = round(0.001 * N)] is 0 (also when the product is evaluated in
    binary64), both subscripts are in range, and [soft_top] and
    [soft_bot] are both [sorted[0]], the least value of the array. *)
Theorem soft_bounds_short_input (flattened : list R)
  (Hlo : (1 <= List.length flattened)%nat)
  (Hhi : (List.length flattened < 500)%nat) :
  Stats.n_outliers (List.length flattened) = 0%Z
  /\ Stats.n_outliers_binary64 (Z.of_nat (List.length flattened)) = Some 0%Z
  /\ exists s,
       Stats.embedding_histogram flattened = inr s
       /\ Py.getitem (Stats.np_sort flattened) 0 = Some (Stats.soft_top s)
       /\ Py.getitem (Stats.np_sort flattened) (- 0) = Some (Stats.soft_bot s)
       /\ Stats.soft_bot s = Stats.soft_top s
       /\ In (Stats.soft_top s) flattened
       /\ (forall x, In x flattened -> (Stats.soft_top s <= x)%R).
Proof.
  assert (Hk : Stats.n_outliers (List.length flattened) = 0%Z)
    by (apply n_outliers_small; lia).
  split; [exact Hk|].
  split; [rewrite n_outliers_binary64_agrees by lia; now rewrite Hk|].
  destruct (@embedding_histogram_fields flattened) as
    [s [Hs [_ [_ [_ [_ [_ [_ [Hst Hsb]]]]]]]]].
  { intros ->. simpl in Hlo. lia. }
  rewrite Hk in Hst, Hsb.
  exists s. split; [exact Hs|].
  split; [exact Hst|]. split; [exact Hsb|].
  split; [simpl in Hsb; congruence|].
  rewrite getitem_front in Hst by lia.
  exact (np_sort_head_least flattened Hst).
Qed.

Lemma soft_bounds_short_input_witness :
  Stats.n_outliers (List.length Inputs.three_values) = 0%Z
  /\ exists s,
       Stats.embedding_histogram Inputs.three_values = inr s
       /\ Stats.soft_bot s = Stats.soft_top s.
Proof.
  destruct (@soft_bounds_short_input Inputs.three_values) as
    [Hk [_ [s [Hs [_ [_ [Heq _]]]]]]].
  - simpl. lia.
  - simpl. lia.
  - split; [exact Hk|]. exists s. split; [exact Hs | exact Heq].
Defined.

(* ================================================================= *)
(** ** Facts about the trace monad and the annotation loop *)

Section PlotFacts.

Import Plot.

Lemma bind_ret_l {A B : Type} (a : A) (k : A -> M B) :
  bind (ret a) k = k a.
Proof. unfold bind, ret. destruct (k a). reflexivity. Qed.

Lemma bind_emit {B : Type} (ev : event) (k : unit -> M B) :
  bind (emit ev) k = (ev :: fst (k tt), snd (k tt)).
Proof. unfold bind, emit. destruct (k tt). reflexivity. Qed.

Lemma bind_raise {A B : Type} (e : Py.exn) (k : A -> M B) :
  bind (raise e) k = raise e.
Proof. reflexivity. Qed.

Lemma bind_ok {A B : Type} (m : M A) (k : A -> M B) (tr : list event) (a : A) :
  m = (tr, inr a) -> bind m k = (tr ++ fst (k a), snd (k a)).
Proof. intros ->. unfold bind. destruct (k a). reflexivity. Qed.

Lemma subscript_in_range {A : Type} (a : list A) (i : nat) (d : A) :
  (i < List.length a)%nat ->
  subscript a (Z.of_nat i) = ret (nth i a d).
Proof.
  intros Hi. unfold subscript.
  rewrite getitem_front by lia. rewrite Nat2Z.id.
  rewrite (nth_error_nth' a d Hi). reflexivity.
Qed.

Lemma nth_before_suffix (pre l : list string) (d : string) :
  pre <> [] ->
  nth (List.length pre - 1) (pre ++ l) d = last pre d.
Proof.
  intros Hne. destruct (exists_last Hne) as [pre0 [a ->]].
  rewrite last_last, length_app. simpl.
  replace (List.length pre0 + 1 - 1)%nat with (List.length pre0) by lia.
  rewrite <- app_assoc. simpl. apply nth_middle.
Qed.

Lemma word_differs_annotated (pre ws : list string) (w : string) :
  word_differs w (last_word_after pre)
  = annotated (pre ++ w :: ws) (List.length pre) w.
Proof.
  unfold annotated. destruct pre as [| a pre'].
  - reflexivity.
  - assert (Hne : a :: pre' <> []) by discriminate.
    rewrite (nth_before_suffix (w :: ws) EmptyString Hne).
    reflexivity.
Qed.

Lemma last_word_after_snoc (pre : list string) (w : string) :
  last_word_after (pre ++ [w]) = Some w.
Proof.
  unfold last_word_after. destruct (pre ++ [w]) eqn:E.
  - destruct pre; discriminate.
  - rewrite <- E. now rewrite last_last.
Qed.

Lemma last_word_unchanged (pre : list string) (w : string) :
  word_differs w (last_word_after pre) = false ->
  last_word_after pre = Some w.
Proof.
  unfold word_differs, last_word_after. destruct pre as [| a pre'].
  - discriminate.
  - intros H. apply negb_false_iff in H. apply String.eqb_eq in H.
    now rewrite H.
Qed.

(** The loop, started after the labels [pre], annotates the labels of
    [ws] selected by [annotated], each at its own point. *)
Lemma annotate_loop_run (pts : list point) (ws pre : list string) :
  (List.length pre + List.length ws <= List.length pts)%nat ->
  annotate_loop pts (last_word_after pre)
                (Py.enumerate_from (List.length pre) ws)
  = (map (annotation pts)
         (filter (fun '(i, w) => annotated (pre ++ ws) i w)
                 (Py.enumerate_from (List.length pre) ws)),
     inr tt).
Proof.
  revert pre. induction ws as [| w ws IH]; intros pre Hlen.
  - reflexivity.
  - simpl List.length in Hlen.
    assert (Hstep : (List.length (pre ++ [w]) + List.length ws
                     <= List.length pts)%nat)
      by (rewrite length_app; simpl; lia).
    specialize (IH (pre ++ [w]) Hstep).
    rewrite <- app_assoc in IH. simpl app in IH.
    replace (List.length (pre ++ [w])) with (S (List.length pre)) in IH
      by (rewrite length_app; simpl; lia).
    cbn [Py.enumerate_from annotate_loop filter].
    rewrite <- (word_differs_annotated pre ws w).
    destruct (word_differs w (last_word_after pre)) eqn:E.
    + rewrite (subscript_in_range pts (0%Q, 0%Q)) by lia.
      rewrite bind_ret_l, bind_emit.
      rewrite last_word_after_snoc in IH. rewrite IH. reflexivity.
    + rewrite (@last_word_unchanged pre w E).
      rewrite last_word_after_snoc in IH. exact IH.
Qed.

Lemma annotate_words_run (pts : list point) (words : list string) :
  (List.length words <= List.length pts)%nat ->
  annotate_words pts words
  = (map (annotation pts) (annotation_set words), inr tt).
Proof.
  intros Hlen. exact (@annotate_loop_run pts words [] Hlen).
Qed.

Lemma in_enumerate_from {A : Type} (k i : nat) (x : A) (xs : list A) :
  In (i, x) (Py.enumerate_from k xs) ->
  (k <= i < k + List.length xs)%nat /\ nth_error xs (i - k) = Some x.
Proof.
  revert k. induction xs as [| y xs IH]; intros k Hin; [destruct Hin|].
  simpl in Hin. destruct Hin as [Heq | Hin].
  - injection Heq as <- <-. rewrite Nat.sub_diag. simpl. split; [lia | reflexivity].
  - destruct (IH (S k) Hin) as [Hr Hn]. simpl List.length. split; [lia|].
    replace (i - k)%nat with (S (i - S k)) by lia. exact Hn.
Qed.

Lemma filter_keeps_all {A : Type} (f : A -> bool) (l : list A) :
  (forall x, In x l -> f x = true) -> filter f l = l.
Proof.
  induction l as [| x l IH]; intros H; [reflexivity|].
  simpl. rewrite (H x (or_introl eq_refl)). f_equal.
  apply IH. intros y Hy. apply H. now right.
Qed.

Lemma filter_drops_all {A : Type} (f : A -> bool) (l : list A) :
  (forall x, In x l -> f x = false) -> filter f l = [].
Proof.
  induction l as [| x l IH]; intros H; [reflexivity|].
  simpl. rewrite (H x (or_introl eq_refl)).
  apply IH. intros y Hy. apply H. now right.
Qed.



End PlotFacts.

(* ================================================================= *)
(** ** Claim about the path annotation *)



Example annotation_set_pad_pad_good :
  Plot.annotation_set Inputs.pad_pad_good
  = [(0%nat, "PAD"%string); (2%nat, "good"%string)].
Proof. vm_compute. reflexivity. Qed.

(* ================================================================= *)
(** ** Facts about saving and showing *)

Section OutputFacts.

Import Plot.

Lemma substring_all (s : string) : substring 0 (String.length s) s = s.
Proof.
  induction s as [| c s IH]; [reflexivity|]. simpl. now rewrite IH.
Qed.

Lemma substring_suffix (s t : string) :
  substring (String.length s) (String.length t) (s ++ t) = t.
Proof.
  induction s as [| c s IH]; simpl; [apply substring_all | exact IH].
Qed.

Lemma string_length_append (s t : string) :
  String.length (s ++ t) = (String.length s + String.length t)%nat.
Proof.
  induction s as [| c s IH]; simpl; [reflexivity | now rewrite IH].
Qed.

Lemma endswith_append (s t : string) : Py.endswith (s ++ t) t = true.
Proof.
  unfold Py.endswith. rewrite string_length_append.
  apply andb_true_intro. split.
  - apply Nat.leb_le. lia.
  - replace (String.length s + String.length t - String.length t)%nat
      with (String.length s) by lia.
    rewrite substring_suffix. apply String.eqb_refl.
Qed.

Lemma png_name_endswith (name : string) :
  Py.endswith (png_name name) ".png" = true.
Proof.
  unfold png_name. destruct (Py.endswith name ".png") eqn:E; simpl.
  - exact E.
  - apply endswith_append.
Qed.

Lemma save_or_show_some (can_write : path -> bool) (name : string) :
  save_or_show can_write (Some name)
  = plt_savefig can_write (save_target name).
Proof. reflexivity. Qed.


Lemma outputs_app (tr tr' : list event) :
  outputs (tr ++ tr') = outputs tr ++ outputs tr'.
Proof. unfold outputs. apply filter_app. Qed.

Lemma quiet_ret {A : Type} (a : A) : quiet (ret a).
Proof. reflexivity. Qed.

Lemma quiet_raise {A : Type} (e : Py.exn) : quiet (@raise A e).
Proof. reflexivity. Qed.

Lemma quiet_emit (ev : event) : is_output ev = false -> quiet (emit ev).
Proof. intros H. unfold quiet, outputs. simpl. now rewrite H. Qed.

Lemma quiet_bind {A B : Type} (m : M A) (k : A -> M B) :
  quiet m -> (forall a, quiet (k a)) -> quiet (bind m k).
Proof.
  unfold quiet. destruct m as [tr [e | a]]; intros Hm Hk; simpl in *.
  - exact Hm.
  - specialize (Hk a). destruct (k a) as [tr' r]. simpl in *.
    rewrite outputs_app, Hm, Hk. reflexivity.
Qed.

Lemma quiet_for_each {A : Type} (xs : list A) (body : A -> M unit) :
  (forall x, quiet (body x)) -> quiet (for_each xs body).
Proof.
  intros Hb. induction xs as [| x xs IH]; cbn [for_each].
  - apply quiet_ret.
  - apply quiet_bind; [apply Hb | intros _; exact IH].
Qed.

Lemma quiet_subscript {A : Type} (a : list A) (i : Z) : quiet (subscript a i).
Proof.
  unfold subscript. destruct (Py.getitem a i); [apply quiet_ret | apply quiet_raise].
Qed.

Lemma quiet_take {A : Type} (a : list A) (idx : list Z) : quiet (take a idx).
Proof.
  induction idx as [| i idx IH]; cbn [take]; [apply quiet_ret|].
  apply quiet_bind; [apply quiet_subscript|]. intros x.
  apply quiet_bind; [exact IH|]. intros xs. apply quiet_ret.
Qed.

Lemma quiet_setitem {A : Type} (a : list A) (i : Z) (v : A) :
  quiet (setitem a i v).
Proof.
  unfold setitem.
  destruct ((0 <=? (if (0 <=? i)%Z then i else (Z.of_nat (List.length a) + i)%Z))
            && ((if (0 <=? i)%Z then i else (Z.of_nat (List.length a) + i)%Z)
                <? Z.of_nat (List.length a)))%Z;
    [apply quiet_ret | apply quiet_raise].
Qed.

Lemma quiet_plt_subplots (nrows ncols : nat) : quiet (plt_subplots nrows ncols).
Proof.
  destruct nrows; [apply quiet_raise | apply quiet_emit; reflexivity].
Qed.

Lemma quiet_annotate_loop (pts : list point) (items : list (nat * string))
  (last_word : option string) :
  quiet (annotate_loop pts last_word items).
Proof.
  revert last_word. induction items as [| [i w] rest IH]; intros last_word.
  - apply quiet_ret.
  - cbn [annotate_loop]. destruct (word_differs w last_word); [| apply IH].
    apply quiet_bind; [apply quiet_subscript|]. intros xy.
    apply quiet_bind; [apply quiet_emit; reflexivity|]. intros _. apply IH.
Qed.

Lemma quiet_sns_barplot (row : nat) (attr : list Q) (palette : list color) :
  quiet (sns_barplot row attr palette).
Proof.
  destruct attr; [apply quiet_raise | apply quiet_emit; reflexivity].
Qed.

Lemma quiet_np_asarray (rows : list (list string)) :
  quiet (np_asarray_T_reversed rows).
Proof.
  unfold np_asarray_T_reversed.
  destruct (rectangular rows); [apply quiet_ret | apply quiet_raise].
Qed.











Lemma for_each_emits {A : Type} (xs : list A) (body : A -> M unit) :
  (forall x, snd (body x) = inr tt) -> snd (for_each xs body) = inr tt.
Proof.
  intros Hb. induction xs as [| x xs IH]; [reflexivity|].
  cbn [for_each]. specialize (Hb x).
  destruct (body x) as [tr r]. simpl in Hb. subst r.
  unfold bind. destruct (for_each xs body) as [tr' r']. exact IH.
Qed.

(** Everything [visualize_embedding_space] does before it saves: it
    cannot raise and neither saves nor shows. *)
Lemma visualize_embedding_space_runs can_write word_emb pca interesting_embs :
  exists tr,
    outputs tr = []
    /\ visualize_embedding_space can_write word_emb pca interesting_embs
       = (tr ++ fst (bind (plt_savefig can_write embedding_space_target)
                          (fun _ => emit Show)),
          snd (bind (plt_savefig can_write embedding_space_target)
                    (fun _ => emit Show))).
Proof.
  unfold visualize_embedding_space.
  set (final := bind (plt_savefig can_write embedding_space_target)
                     (fun _ => emit Show)).
  set (loop := for_each interesting_embs _).
  assert (Hloop : snd loop = inr tt).
  { apply for_each_emits. intros [word emb]. reflexivity. }
  assert (Hq : quiet loop).
  { apply quiet_for_each. intros [word emb]. apply quiet_emit. reflexivity. }
  destruct loop as [tr r]. simpl in Hloop. subst r.
  unfold quiet in Hq. simpl in Hq.
  exists ([Subplots 1 1; Scatter (pca word_emb)] ++ tr
          ++ [SetXLabel "1st PCA dimension"; SetYLabel "2nd PCA dimension";
              Title []]).
  split.
  { rewrite !outputs_app, Hq. reflexivity. }
  change (plt_savefig can_write (Path "figures/pca_embedding_space.png");;
          emit Show) with final.
  destruct final as [trf rf]. simpl.
  rewrite <- !app_assoc. reflexivity.
Qed.

Lemma visualize_embedding_space_cases can_write word_emb pca
  interesting_embs :
  (can_write embedding_space_target = true ->
   snd (visualize_embedding_space can_write word_emb pca interesting_embs)
   = inr tt
   /\ outputs (fst (visualize_embedding_space can_write word_emb pca
                                              interesting_embs))
      = [SaveFig embedding_space_target; Show])
  /\ (can_write embedding_space_target = false ->
      snd (visualize_embedding_space can_write word_emb pca interesting_embs)
      = inl Py.OSError
      /\ outputs (fst (visualize_embedding_space can_write word_emb pca
                                                 interesting_embs))
         = []).
Proof.
  destruct (visualize_embedding_space_runs can_write word_emb pca
                                           interesting_embs)
    as [tr [Hq Heq]].
  rewrite Heq. unfold plt_savefig. cbn [fst snd].
  split; intros ->; cbn [bind emit raise fst snd];
    rewrite outputs_app, Hq; split; reflexivity.
Qed.



End OutputFacts.

(* ================================================================= *)
(** ** Claim about the save target *)




(* ================================================================= *)
(** ** Facts about mismatched lengths *)

Section ShapeFacts.

Import Plot.

Lemma subscript_defined {A : Type} (a : list A) (i : Z) :
  (- Z.of_nat (List.length a) <= i < Z.of_nat (List.length a))%Z ->
  exists x, subscript a i = ret x.
Proof.
  intros Hi. unfold subscript.
  destruct (Z_lt_le_dec i 0) as [Hneg | Hpos].
  - rewrite getitem_back by lia.
    destruct (@nth_error_defined A a (List.length a - Z.to_nat (- i)))
      as [x Hx]; [lia|].
    rewrite Hx. now exists x.
  - rewrite getitem_front by lia.
    destruct (@nth_error_defined A a (Z.to_nat i)) as [x Hx]; [lia|].
    rewrite Hx. now exists x.
Qed.



Lemma getitem_out_of_range {A : Type} (a : list A) (i : Z) :
  ~ (- Z.of_nat (List.length a) <= i < Z.of_nat (List.length a))%Z ->
  Py.getitem a i = None.
Proof.
  intros Hout. unfold Py.getitem.
  destruct (0 <=? i)%Z eqn:E0.
  - apply Z.leb_le in E0. apply nth_error_None. lia.
  - destruct (- Z.of_nat (List.length a) <=? i)%Z eqn:E1; [|reflexivity].
    apply Z.leb_le in E1. apply Z.leb_gt in E0. lia.
Qed.

(** A fancy-indexing lookup either finds every index in range and
    returns, or meets an index out of range and raises. *)
Lemma take_cases {A : Type} (a : list A) (idx : list Z) :
  (Forall (fun i => (- Z.of_nat (List.length a) <= i
                     < Z.of_nat (List.length a))%Z) idx
   /\ exists xs, take a idx = ret xs)
  \/ (Exists (fun i => ~ (- Z.of_nat (List.length a) <= i
                          < Z.of_nat (List.length a))%Z) idx
      /\ take a idx = raise Py.IndexError).
Proof.
  induction idx as [| i idx IH].
  - left. split; [constructor | now exists []].
  - destruct (Z_le_dec (- Z.of_nat (List.length a)) i) as [Hlo | Hlo];
      [destruct (Z_lt_dec i (Z.of_nat (List.length a))) as [Hhi | Hhi] |].
    + destruct (@subscript_defined _ a i (conj Hlo Hhi)) as [x Hx].
      destruct IH as [[Hall [xs Hxs]] | [Hex Hraise]].
      * left. split; [constructor; [lia | exact Hall]|].
        exists (x :: xs). cbn [take].
        rewrite Hx, bind_ret_l, Hxs, bind_ret_l. reflexivity.
      * right. split; [now apply Exists_cons_tl|].
        cbn [take]. rewrite Hx, bind_ret_l, Hraise. reflexivity.
    + right. split; [apply Exists_cons_hd; lia|].
      cbn [take]. unfold subscript.
      rewrite getitem_out_of_range by lia. reflexivity.
    + right. split; [apply Exists_cons_hd; lia|].
      cbn [take]. unfold subscript.
      rewrite getitem_out_of_range by lia. reflexivity.
Qed.

Lemma subscript_past_end {A : Type} (a : list A) (i : nat) :
  (List.length a <= i)%nat -> subscript a (Z.of_nat i) = raise Py.IndexError.
Proof.
  intros Hi. unfold subscript. rewrite getitem_out_of_range by lia.
  reflexivity.
Qed.

(** The loop without any assumption on the number of points: it draws
    the selected labels that have a point and raises at the first one
    that has none. *)
Lemma annotate_loop_any (pts : list point) (ws pre : list string) :
  annotate_loop pts (last_word_after pre)
                (Py.enumerate_from (List.length pre) ws)
  = (map (annotation pts)
         (filter (has_point pts)
            (filter (fun '(i, w) => annotated (pre ++ ws) i w)
                    (Py.enumerate_from (List.length pre) ws))),
     if forallb (has_point pts)
          (filter (fun '(i, w) => annotated (pre ++ ws) i w)
                  (Py.enumerate_from (List.length pre) ws))
     then inr tt else inl Py.IndexError).
Proof.
  revert pre. induction ws as [| w ws IH]; intros pre.
  - reflexivity.
  - specialize (IH (pre ++ [w])).
    rewrite <- app_assoc in IH. simpl app in IH.
    replace (List.length (pre ++ [w])) with (S (List.length pre)) in IH
      by (rewrite length_app; simpl; lia).
    cbn [Py.enumerate_from annotate_loop filter].
    rewrite <- (word_differs_annotated pre ws w).
    destruct (word_differs w (last_word_after pre)) eqn:E.
    + cbn [filter forallb].
      destruct (has_point pts (List.length pre, w)) eqn:Ek;
        unfold has_point in Ek; cbn [fst] in Ek.
      * apply Nat.ltb_lt in Ek.
        rewrite (subscript_in_range pts (0%Q, 0%Q) Ek).
        rewrite bind_ret_l, bind_emit.
        rewrite last_word_after_snoc in IH. rewrite IH. reflexivity.
      * apply Nat.ltb_ge in Ek.
        rewrite (subscript_past_end pts Ek), bind_raise.
        rewrite filter_drops_all; [reflexivity|].
        intros [i v] Hin. apply filter_In in Hin. destruct Hin as [Hin _].
        apply in_enumerate_from in Hin. destruct Hin as [Hr _].
        unfold has_point. cbn [fst]. apply Nat.ltb_ge. lia.
    + rewrite (@last_word_unchanged pre w E).
      rewrite last_word_after_snoc in IH. exact IH.
Qed.

Lemma annotate_words_any (pts : list point) (words : list string) :
  annotate_words pts words
  = (map (annotation pts) (filter (has_point pts) (annotation_set words)),
     if forallb (has_point pts) (annotation_set words)
     then inr tt else inl Py.IndexError).
Proof. exact (@annotate_loop_any pts words []). Qed.

Lemma forallb_filter_all {A : Type} (f : A -> bool) (l : list A) :
  forallb f l = true -> filter f l = l.
Proof.
  intros H. apply filter_keeps_all. intros x Hx.
  rewrite forallb_forall in H. exact (H x Hx).
Qed.




Lemma visualize_word_path_run can_write word_path_emb
  word_path_discretized_emb word_path (pca : list embedding -> list point)
  model_str version_ig save_str :
  visualize_word_path can_write word_path_emb word_path_discretized_emb
                      word_path pca model_str version_ig save_str
  = if forallb (has_point (pca word_path_discretized_emb))
               (annotation_set word_path)
    then (word_path_lines pca word_path_emb word_path_discretized_emb
                          model_str version_ig
          ++ map (annotation (pca word_path_discretized_emb))
                 (annotation_set word_path)
          ++ fst (save_or_show can_write save_str),
          snd (save_or_show can_write save_str))
    else (word_path_lines pca word_path_emb word_path_discretized_emb
                          model_str version_ig
          ++ map (annotation (pca word_path_discretized_emb))
                 (filter (has_point (pca word_path_discretized_emb))
                         (annotation_set word_path)),
          inl Py.IndexError).
Proof.
  unfold visualize_word_path, word_path_lines.
  rewrite annotate_words_any.
  destruct (forallb (has_point (pca word_path_discretized_emb))
                    (annotation_set word_path)) eqn:Eall.
  - rewrite (forallb_filter_all _ _ Eall).
    destruct (save_or_show can_write save_str) as [trf rf].
    reflexivity.
  - reflexivity.
Qed.

Lemma aligned_labels_have_points (pts : list point) (words : list string) :
  (List.length words <= List.length pts)%nat ->
  forallb (has_point pts) (annotation_set words) = true.
Proof.
  intros Hlen. apply forallb_forall. intros [i w] Hin.
  unfold annotation_set in Hin. apply filter_In in Hin.
  destruct Hin as [Hin _]. unfold Py.enumerate in Hin.
  apply in_enumerate_from in Hin. destruct Hin as [Hr _].
  unfold has_point. cbn [fst]. apply Nat.ltb_lt. lia.
Qed.


End ShapeFacts.

(* ================================================================= *)
(** ** Claim about mismatched lengths *)




(* ================================================================= *)
(** ** Further properties of the ranking *)

Section RankOrder.

Import Rank.

Lemma count_greater_monotone (x y : Q) (l : list Q) :
  (x <= y)%Q -> (count_greater y l <= count_greater x l)%nat.
Proof.
  intros Hxy. induction l as [| z l IH]; [unfold count_greater; simpl; lia|].
  rewrite !count_greater_cons.
  destruct (Qltb y z) eqn:Eyz.
  - apply Qltb_lt in Eyz.
    assert (Exz : Qltb x z = true)
      by (apply Qltb_lt; exact (Qle_lt_trans _ _ _ Hxy Eyz)).
    rewrite Exz. lia.
  - destruct (Qltb x z); lia.
Qed.

Lemma count_greater_strict (x y : Q) (l : list Q) :
  (x < y)%Q -> In y l -> (count_greater y l < count_greater x l)%nat.
Proof.
  intros Hxy Hin. apply in_split in Hin. destruct Hin as [l1 [l2 ->]].
  rewrite !(count_greater_perm _ (Permutation_sym (Permutation_middle l1 l2 y))).
  rewrite !count_greater_cons.
  assert (Eyy : Qltb y y = false) by (apply Qltb_false_le, Qle_refl).
  assert (Exy : Qltb x y = true) by (apply Qltb_lt; exact Hxy).
  rewrite Eyy, Exy.
  pose proof (@count_greater_monotone x y (l1 ++ l2) (Qlt_le_weak _ _ Hxy)).
  lia.
Qed.

Lemma count_greater_equal_scores (x y : Q) (l : list Q) :
  (x == y)%Q -> count_greater x l = count_greater y l.
Proof.
  intros Heq. apply Nat.le_antisymm; apply count_greater_monotone;
    rewrite Heq; apply Qle_refl.
Qed.

Lemma count_greater_zero_iff (x : Q) (l : list Q) :
  count_greater x l = 0%nat <-> forall y, In y l -> (y <= x)%Q.
Proof.
  split.
  - intros H0 y Hy. apply Qltb_false_le.
    destruct (Qltb x y) eqn:E; [|reflexivity].
    assert (Hin : In y (filter (fun z => Qltb x z) l))
      by (apply filter_In; split; assumption).
    unfold count_greater in H0. apply length_zero_iff_nil in H0.
    rewrite H0 in Hin. destruct Hin.
  - intros Hall. apply count_greater_bounded. apply Forall_forall. exact Hall.
Qed.

Lemma greatest_score_exists (attrs : list Q) :
  attrs <> [] ->
  exists m, In m attrs /\ forall y, In y attrs -> (y <= m)%Q.
Proof.
  induction attrs as [| a l IH]; intros Hne; [congruence|].
  destruct l as [| b l'].
  - exists a. split; [now left|]. intros y [<- | []]. apply Qle_refl.
  - destruct IH as [m [Hin Hall]]; [discriminate|].
    destruct (Qlt_le_dec m a) as [Hma | Ham].
    + exists a. split; [now left|].
      intros y [<- | Hy]; [apply Qle_refl|].
      apply Qlt_le_weak. exact (Qle_lt_trans _ _ _ (Hall y Hy) Hma).
    + exists m. split; [now right|].
      intros y [<- | Hy]; [exact Ham | exact (Hall y Hy)].
Qed.

Lemma nth_error_rank_short (attrs : list Q) (i : nat) (x : Q) :
  (List.length attrs <= 127)%nat ->
  nth_error attrs i = Some x ->
  nth_error (rank attrs) i = Some (1 + Z.of_nat (count_greater x attrs))%Z.
Proof.
  intros Hlen Hi. rewrite (rank_faithful_short attrs Hlen).
  unfold competition_rank. rewrite nth_error_map, Hi. reflexivity.
Qed.

Lemma map_NoDup_pairs {A B : Type} (R : A -> A -> Prop) (f : A -> B)
  (l : list A) :
  ForallOrdPairs R l ->
  (forall a b, In a l -> In b l -> R a b -> f a <> f b) ->
  NoDup (map f l).
Proof.
  induction 1 as [| a l Hal Hl IH]; intros Hf; simpl; constructor.
  - intros Hin. apply in_map_iff in Hin. destruct Hin as [b [Heq Hb]].
    rewrite Forall_forall in Hal.
    apply (Hf a b (or_introl eq_refl) (or_intror Hb) (Hal b Hb)).
    now symmetry.
  - apply IH. intros b c Hb Hc. apply Hf; now right.
Qed.

Lemma competition_rank_NoDup (attrs : list Q) :
  pairwise_distinct attrs -> NoDup (competition_rank attrs).
Proof.
  intros Hd. unfold competition_rank.
  apply (map_NoDup_pairs (R := fun a b => ~ (a == b)%Q)); [exact Hd|].
  intros a b Ha Hb Hab Heq.
  destruct (Q_dec a b) as [[Hlt | Hgt] | He]; [| | exact (Hab He)].
  - pose proof (count_greater_strict attrs Hlt Hb). lia.
  - pose proof (count_greater_strict attrs Hgt Ha). lia.
Qed.

End RankOrder.

(** X1.  Ranks reverse the order of the scores: for a vector of at most
    127 scores, a strictly greater score has a strictly smaller rank, and
    two positions have the same rank exactly when their scores are
    equal. *)
Theorem rank_reverses_order (attrs : list Q) (i j : nat) (x y : Q)
  (Hlen : (List.length attrs <= 127)%nat)
  (Hi : nth_error attrs i = Some x)
  (Hj : nth_error attrs j = Some y) :
  exists ri rj,
    nth_error (Rank.rank attrs) i = Some ri
    /\ nth_error (Rank.rank attrs) j = Some rj
    /\ ((x < y)%Q -> (rj < ri)%Z)
    /\ (ri = rj <-> (x == y)%Q).
Proof.
  exists (1 + Z.of_nat (Rank.count_greater x attrs))%Z,
         (1 + Z.of_nat (Rank.count_greater y attrs))%Z.
  split; [exact (nth_error_rank_short attrs i Hlen Hi)|].
  split; [exact (nth_error_rank_short attrs j Hlen Hj)|].
  pose proof (nth_error_In _ _ Hi) as Hx.
  pose proof (nth_error_In _ _ Hj) as Hy.
  split.
  - intros Hlt. pose proof (count_greater_strict attrs Hlt Hy). lia.
  - split.
    + intros Heq.
      destruct (Q_dec x y) as [[Hlt | Hgt] | He]; [| | exact He].
      * pose proof (count_greater_strict attrs Hlt Hy). lia.
      * pose proof (count_greater_strict attrs Hgt Hx). lia.
    + intros He. now rewrite (count_greater_equal_scores attrs He).
Qed.

Lemma rank_reverses_order_witness :
  exists ri rj,
    nth_error (Rank.rank Inputs.five_scores) 0 = Some ri
    /\ nth_error (Rank.rank Inputs.five_scores) 1 = Some rj
    /\ ((1#10 < 9#10)%Q -> (rj < ri)%Z)
    /\ (ri = rj <-> (1#10 == 9#10)%Q).
Proof.
  apply (@rank_reverses_order Inputs.five_scores 0 1 (1#10) (9#10)).
  - simpl. lia.
  - reflexivity.
  - reflexivity.
Defined.

(** X2.  Without ties the ranks are a permutation: for at most 127
    pairwise different scores the rank vector is a rearrangement of
    [1, 2, ..., N]. *)
Theorem rank_permutation_without_ties (attrs : list Q)
  (Hlen : (List.length attrs <= 127)%nat)
  (Hdistinct : Rank.pairwise_distinct attrs) :
  Permutation (Rank.rank attrs)
              (map Z.of_nat (seq 1 (List.length attrs))).
Proof.
  rewrite (rank_faithful_short attrs Hlen).
  apply NoDup_Permutation_bis.
  - exact (competition_rank_NoDup Hdistinct).
  - rewrite length_map, length_seq. unfold Rank.competition_rank.
    rewrite length_map. lia.
  - intros r Hr.
    pose proof (competition_rank_bounds attrs) as Hb.
    rewrite Forall_forall in Hb. specialize (Hb r Hr).
    apply in_map_iff. exists (Z.to_nat r). split; [lia|].
    apply in_seq. lia.
Qed.

Lemma rank_permutation_without_ties_witness :
  Permutation (Rank.rank [3#10; 1#10; 2#10])
              (map Z.of_nat (seq 1 (List.length [3#10; 1#10; 2#10]))).
Proof.
  apply (@rank_permutation_without_ties [3#10; 1#10; 2#10]).
  - simpl. lia.
  - unfold Rank.pairwise_distinct.
    repeat constructor; intros H; vm_compute in H; discriminate H.
Defined.

(** X3.  Rank 1 marks the greatest scores: for a non-empty vector of at
    most 127 scores some position has rank 1, and a position has rank 1
    exactly when no score is greater than its own. *)
Theorem rank_one_is_greatest (attrs : list Q)
  (Hlen : (List.length attrs <= 127)%nat)
  (Hne : attrs <> []) :
  In 1%Z (Rank.rank attrs)
  /\ forall i x, nth_error attrs i = Some x ->
       (nth_error (Rank.rank attrs) i = Some 1%Z
        <-> forall y, In y attrs -> (y <= x)%Q).
Proof.
  assert (Hiff : forall i x, nth_error attrs i = Some x ->
            (nth_error (Rank.rank attrs) i = Some 1%Z
             <-> forall y, In y attrs -> (y <= x)%Q)).
  { intros i x Hi. rewrite (nth_error_rank_short attrs i Hlen Hi).
    rewrite <- count_greater_zero_iff. split.
    - intros H.
      assert (H' : (1 + Z.of_nat (Rank.count_greater x attrs))%Z = 1%Z)
        by congruence.
      lia.
    - intros ->. reflexivity. }
  split; [| exact Hiff].
  destruct (greatest_score_exists Hne) as [m [Hin Hall]].
  destruct (In_nth_error _ _ Hin) as [i Hi].
  apply (nth_error_In _ i). apply (Hiff i m Hi). exact Hall.
Qed.

Lemma rank_one_is_greatest_witness :
  In 1%Z (Rank.rank Inputs.five_scores).
Proof.
  apply (@rank_one_is_greatest Inputs.five_scores).
  - simpl. lia.
  - unfold Inputs.five_scores. discriminate.
Defined.

(* ================================================================= *)
(** ** Further properties of the palette lookup *)

Section PaletteFacts.

Import Plot.

Lemma take_palette_entries (n : nat) (idx : list Z) (xs : list color) :
  Forall (fun i => (0 <= i)%Z) idx ->
  take (color_palette n) idx = ret xs ->
  map Z.of_nat xs = idx.
Proof.
  revert xs. induction idx as [| i idx IH]; intros xs Hpos Hret.
  - cbn [take] in Hret. injection Hret as <-. reflexivity.
  - inversion Hpos as [| ? ? Hi Hrest]; subst.
    cbn [take] in Hret. unfold subscript in Hret.
    rewrite getitem_front in Hret by exact Hi.
    destruct (nth_error (color_palette n) (Z.to_nat i)) as [c|] eqn:Ec;
      [| discriminate Hret].
    rewrite bind_ret_l in Hret.
    destruct (take (color_palette n) idx) as [tr [e | ys]] eqn:Et;
      [discriminate Hret|].
    assert (Htr : tr = []).
    { destruct (take_cases (color_palette n) idx) as [[_ [zs Hzs]] | [_ Hr]].
      - rewrite Hzs in Et. injection Et as <- _. reflexivity.
      - rewrite Hr in Et. discriminate Et. }
    subst tr. change ([], @inr Py.exn _ ys) with (ret ys) in Hret.
    rewrite bind_ret_l in Hret. injection Hret as <-.
    simpl. f_equal; [| apply IH; [exact Hrest | reflexivity]].
    assert (Hlt : (Z.to_nat i < List.length (color_palette n))%nat)
      by (apply nth_error_Some; congruence).
    apply (nth_error_nth _ _ 0%nat) in Ec.
    unfold color_palette in *. rewrite length_seq in Hlt.
    rewrite seq_nth in Ec by exact Hlt. lia.
Qed.

Lemma rank_int8_in_list (attrs : list Q) (r : Z) :
  In r (Rank.rank attrs) <->
  exists x, In x attrs
            /\ r = Py.astype_int8 (1 + Z.of_nat (Rank.count_greater x attrs)).
Proof.
  rewrite rank_is_cast_of_competition. unfold Rank.competition_rank.
  rewrite map_map, in_map_iff. split; intros [x [H1 H2]]; exists x; auto.
Qed.

End PaletteFacts.

(** X4.  When the attribution vector has as many entries as there are
    tokens (at most 127), the palette lookup [np.array(pal)[rank]] raises
    [IndexError] exactly when some score has all the other scores strictly
    above it, i.e. when some rank equals the number of tokens. *)
Theorem palette_lookup_raises_iff (attrs : list Q) (n : nat)
  (Hn : List.length attrs = n) (Hshort : (n <= 127)%nat) :
  Plot.take (Plot.color_palette n) (Rank.rank attrs) = Plot.raise Py.IndexError
  <-> exists x, In x attrs /\ S (Rank.count_greater x attrs) = n.
Proof.
  assert (Hlen : List.length (Plot.color_palette n) = n)
    by (unfold Plot.color_palette; apply length_seq).
  assert (Hranks : forall r, In r (Rank.rank attrs) ->
            exists x, In x attrs
                      /\ r = (1 + Z.of_nat (Rank.count_greater x attrs))%Z
                      /\ (Rank.count_greater x attrs < n)%nat).
  { intros r Hr. rewrite (rank_faithful_short attrs) in Hr by lia.
    pose proof (competition_rank_bounds attrs) as Hb.
    rewrite Forall_forall in Hb. specialize (Hb r Hr).
    unfold Rank.competition_rank in Hr. apply in_map_iff in Hr.
    destruct Hr as [x [<- Hx]]. exists x. repeat split; [exact Hx | lia]. }
  destruct (take_cases (Plot.color_palette n) (Rank.rank attrs))
    as [[Hall [xs Hxs]] | [Hex Hraise]]; rewrite Hlen in *.
  - split.
    + intros Hr. rewrite Hxs in Hr. discriminate Hr.
    + intros [x [Hx Hc]]. exfalso.
      rewrite Forall_forall in Hall.
      assert (Hin : In (1 + Z.of_nat (Rank.count_greater x attrs))%Z
                       (Rank.rank attrs)).
      { rewrite (rank_faithful_short attrs) by lia.
        unfold Rank.competition_rank. apply in_map_iff. now exists x. }
      specialize (Hall _ Hin). lia.
  - split; [| intros _; exact Hraise].
    intros _. apply Exists_exists in Hex. destruct Hex as [r [Hr Hout]].
    destruct (Hranks r Hr) as [x [Hx [-> Hlt]]].
    exists x. split; [exact Hx | lia].
Qed.

Lemma palette_lookup_raises_iff_witness :
  Plot.take (Plot.color_palette 2) (Rank.rank [2#10; 1#10])
  = Plot.raise Py.IndexError
  <-> exists x, In x [2#10; 1#10]
                /\ S (Rank.count_greater x [2#10; 1#10]) = 2%nat.
Proof.
  apply (@palette_lookup_raises_iff [2#10; 1#10] 2).
  - reflexivity.
  - lia.
Defined.

(** X5.  With as many pairwise different scores as tokens (at most 127),
    [visualize_attrs] raises [IndexError] at the first entry of
    [bl_attrs]: the figure has been created but no bar chart is drawn and
    nothing is saved or shown. *)
Theorem visualize_attrs_distinct_scores_raise
  (can_write : Plot.path -> bool)
  (bl_name : string) (attrs : list Q) (rest : list (string * list Q))
  (prediction model_str version_ig sentence : string)
  (token_words : list string) (save_str : option string)
  (Hlen : List.length attrs = List.length token_words)
  (Hne : attrs <> [])
  (Hshort : (List.length token_words <= 127)%nat)
  (Hdistinct : Rank.pairwise_distinct attrs) :
  Plot.visualize_attrs can_write ((bl_name, attrs) :: rest) prediction
                       model_str version_ig sentence token_words save_str
  = ([Plot.Subplots (S (List.length rest)) 1; Plot.InsetAxes],
     inl Py.IndexError).
Proof.
  assert (Hraise : Plot.take (Plot.color_palette (List.length token_words))
                             (Rank.rank attrs) = Plot.raise Py.IndexError).
  { destruct (take_cases (Plot.color_palette (List.length token_words))
                         (Rank.rank attrs))
      as [[Hall _] | [_ Hr]]; [exfalso | exact Hr].
    destruct (@distinct_scores_reach_rank_length attrs Hdistinct Hne)
      as [j [y [Hj Hy]]].
    rewrite Forall_forall in Hall.
    unfold Plot.color_palette in Hall. rewrite length_seq in Hall.
    assert (Hin : In (Z.of_nat (List.length token_words)) (Rank.rank attrs)).
    { rewrite (rank_faithful_short attrs) by lia.
      unfold Rank.competition_rank. apply in_map_iff.
      exists y. split; [lia | eapply nth_error_In; exact Hj]. }
    specialize (Hall _ Hin). lia. }
  unfold Plot.visualize_attrs, Py.enumerate.
  cbn [List.length Plot.plt_subplots Py.enumerate_from Plot.for_each
       Plot.attrs_row].
  rewrite Hraise. reflexivity.
Qed.

Lemma visualize_attrs_distinct_scores_raise_witness :
  Plot.visualize_attrs Inputs.writable (("pad"%string, [2#10; 1#10]) :: [])
                       "positive" "bert" "ig" "good movie" Inputs.two_tokens
                       None
  = ([Plot.Subplots 1 1; Plot.InsetAxes], inl Py.IndexError).
Proof.
  apply (@visualize_attrs_distinct_scores_raise Inputs.writable
           "pad" [2#10; 1#10] []
           "positive" "bert" "ig" "good movie" Inputs.two_tokens None).
  - reflexivity.
  - discriminate.
  - simpl. lia.
  - unfold Rank.pairwise_distinct.
    repeat constructor; intros H; vm_compute in H; discriminate H.
Defined.

(** X6.  Where the palette lookup succeeds for a vector of at most 127
    scores, the colour of each bar is the palette entry whose position is
    the bar's rank: the first palette entry (position 0) is never used. *)
Theorem palette_entry_is_rank (attrs : list Q) (n : nat)
  (palette : list Plot.color)
  (Hshort : (List.length attrs <= 127)%nat)
  (Hok : Plot.take (Plot.color_palette n) (Rank.rank attrs) = Plot.ret palette) :
  map Z.of_nat palette = Rank.rank attrs
  /\ ~ In 0%nat palette.
Proof.
  assert (Hpos : Forall (fun r => (1 <= r)%Z) (Rank.rank attrs)).
  { rewrite (rank_faithful_short attrs Hshort).
    eapply Forall_impl; [| apply competition_rank_bounds].
    simpl. intros r Hr. lia. }
  assert (Heq : map Z.of_nat palette = Rank.rank attrs).
  { apply (@take_palette_entries n); [| exact Hok].
    eapply Forall_impl; [| exact Hpos]. simpl. intros r Hr. lia. }
  split; [exact Heq|].
  intros H0. rewrite Forall_forall in Hpos.
  assert (Hin : In (Z.of_nat 0) (Rank.rank attrs))
    by (rewrite <- Heq; apply in_map; exact H0).
  specialize (Hpos _ Hin). simpl in Hpos. lia.
Qed.

Lemma palette_entry_is_rank_witness :
  map Z.of_nat [1; 2; 2]%nat = Rank.rank [9#10; 1#10; 1#10]
  /\ ~ In 0%nat [1; 2; 2]%nat.
Proof.
  apply (@palette_entry_is_rank [9#10; 1#10; 1#10] 3 [1; 2; 2]%nat).
  - simpl. lia.
  - vm_compute. reflexivity.
Defined.

(* ================================================================= *)
(** ** Further properties of the path annotation *)

Section AnnotationFacts.

Import Plot.

Lemma in_enumerate {A : Type} (xs : list A) (i : nat) (x : A) :
  nth_error xs i = Some x -> In (i, x) (Py.enumerate xs).
Proof.
  unfold Py.enumerate.
  assert (H : forall k, nth_error xs i = Some x ->
                        In ((k + i)%nat, x) (Py.enumerate_from k xs)).
  { revert i. induction xs as [| y xs IH]; intros i k Hi.
    - destruct i; discriminate.
    - destruct i as [| i']; simpl in Hi.
      + injection Hi as ->. rewrite Nat.add_0_r. now left.
      + right. replace (k + S i')%nat with (S k + i')%nat by lia.
        apply IH. exact Hi. }
  intros Hi. exact (H 0%nat Hi).
Qed.

Lemma quiet_silent {A : Type} (m : M A) : quiet m -> silent_on_error m.
Proof. intros Hq e _. exact Hq. Qed.

Lemma silent_bind {A B : Type} (m : M A) (k : A -> M B) :
  quiet m -> (forall a, silent_on_error (k a)) -> silent_on_error (bind m k).
Proof.
  unfold quiet, silent_on_error.
  destruct m as [tr [e | a]]; intros Hm Hk e'; simpl in *.
  - intros _. exact Hm.
  - specialize (Hk a). destruct (k a) as [tr' r]. simpl in *.
    intros Hr. rewrite outputs_app, Hm. simpl. exact (Hk e' Hr).
Qed.

Lemma silent_save_or_show (can_write : path -> bool)
  (save_str : option string) :
  silent_on_error (save_or_show can_write save_str).
Proof.
  intros e H. destruct save_str as [name |]; [| discriminate H].
  rewrite save_or_show_some in *. unfold plt_savefig in *.
  destruct (can_write (save_target name)); [discriminate H | reflexivity].
Qed.

Ltac quiet_prefix :=
  repeat first
    [ apply quiet_ret | apply quiet_raise | apply quiet_subscript
    | apply quiet_take | apply quiet_setitem | apply quiet_plt_subplots
    | apply quiet_annotate_loop | apply quiet_sns_barplot
    | apply quiet_np_asarray
    | apply quiet_emit; reflexivity
    | apply quiet_for_each; intros
    | apply quiet_bind; [| intros]
    | match goal with
      | |- quiet (match ?x with _ => _ end) => destruct x
      end ].

Ltac silent_tac :=
  repeat (apply silent_bind; [solve [quiet_prefix] | intros]);
  try apply silent_save_or_show.

Lemma visualize_attrs_silent can_write bl_attrs prediction model_str
  version_ig sentence token_words save_str :
  silent_on_error (visualize_attrs can_write bl_attrs prediction model_str
                                   version_ig sentence token_words save_str).
Proof. unfold visualize_attrs, attrs_row. silent_tac. Qed.

Lemma visualize_ablation_scores_silent can_write avg_scores model_str
  ablation_str num_examples save_str :
  silent_on_error (visualize_ablation_scores can_write avg_scores model_str
                                             ablation_str num_examples
                                             save_str).
Proof. unfold visualize_ablation_scores. silent_tac. Qed.

Lemma visualize_word_paths_silent can_write word_path_emb
  word_path_discretized_emb word_path cloud_emb pca model_str version_ig
  save_str :
  silent_on_error (visualize_word_paths can_write word_path_emb
                     word_path_discretized_emb word_path cloud_emb pca
                     model_str version_ig save_str).
Proof. unfold visualize_word_paths, annotate_words. silent_tac. Qed.

Lemma visualize_word_path_silent can_write word_path_emb
  word_path_discretized_emb word_path pca model_str version_ig save_str :
  silent_on_error (visualize_word_path can_write word_path_emb
                     word_path_discretized_emb word_path pca model_str
                     version_ig save_str).
Proof. unfold visualize_word_path, annotate_words. silent_tac. Qed.

Lemma visualize_word_path_table_silent can_write word_path model_str
  version_ig baseline_str save_str :
  silent_on_error (visualize_word_path_table can_write word_path model_str
                                             version_ig baseline_str save_str).
Proof. unfold visualize_word_path_table. silent_tac. Qed.

Lemma embedding_histogram_silent (flattened : list R) :
  silent_on_error (Plot.embedding_histogram flattened).
Proof.
  unfold Plot.embedding_histogram.
  destruct (Stats.embedding_histogram flattened) as [e | s].
  - intros e' _. reflexivity.
  - intros e' H. discriminate H.
Qed.

Lemma visualize_embedding_space_silent can_write word_emb pca
  interesting_embs :
  silent_on_error (visualize_embedding_space can_write word_emb pca
                                             interesting_embs).
Proof.
  intros e He.
  destruct (visualize_embedding_space_cases can_write word_emb pca
                                            interesting_embs) as [Hok Hfail].
  destruct (can_write embedding_space_target).
  - destruct (Hok eq_refl) as [Hr _]. rewrite Hr in He. discriminate He.
  - destruct (Hfail eq_refl) as [_ Hout]. exact Hout.
Qed.

(** Every label belongs to a run that starts at a selected index. *)
Lemma annotation_set_covers (words : list string) (i : nat) (w : string) :
  nth_error words i = Some w ->
  exists j, (j <= i)%nat
            /\ In (j, w) (annotation_set words)
            /\ forall m, (j <= m <= i)%nat -> nth_error words m = Some w.
Proof.
  revert w. induction i as [| i IH]; intros w Hi.
  - exists 0%nat. split; [lia|]. split.
    + unfold annotation_set. apply filter_In.
      split; [apply in_enumerate; exact Hi | reflexivity].
    + intros m Hm. assert (m = 0%nat) by lia. now subst.
  - destruct (String.eqb w (nth i words EmptyString)) eqn:E.
    + apply String.eqb_eq in E.
      assert (Hprev : nth_error words i = Some w).
      { assert (Hlt : (i < List.length words)%nat).
        { assert (Hs : (S i < List.length words)%nat)
            by (apply nth_error_Some; congruence). lia. }
        rewrite (nth_error_nth' words EmptyString Hlt). now rewrite <- E. }
      destruct (IH w Hprev) as [j [Hj [Hin Hall]]].
      exists j. split; [lia|]. split; [exact Hin|].
      intros m Hm. destruct (Nat.eq_dec m (S i)) as [-> | Hne];
        [exact Hi | apply Hall; lia].
    + exists (S i). split; [lia|]. split.
      * unfold annotation_set. apply filter_In.
        split; [apply in_enumerate; exact Hi|].
        unfold annotated. cbn [Nat.eqb orb].
        replace (S i - 1)%nat with i by lia. now rewrite E.
      * intros m Hm. assert (m = S i) by lia. now subst.
Qed.

End AnnotationFacts.

(** X7.  The annotation loop for any number of path points: it annotates,
    in order, the selected pairs (index 0 or a label different from its
    predecessor) whose index has a path point, and it returns normally
    exactly when every selected pair has one; otherwise it raises
    [IndexError] at the first selected pair without a point. *)
Theorem annotate_words_any_length (pts : list Plot.point)
  (words : list string) :
  Plot.annotate_words pts words
  = (map (Plot.annotation pts)
         (filter (Plot.has_point pts) (Plot.annotation_set words)),
     if forallb (Plot.has_point pts) (Plot.annotation_set words)
     then inr tt else inl Py.IndexError).
Proof. exact (annotate_words_any pts words). Qed.

(** X8.  No label of an aligned path is lost by the annotation loop: when
    there is a path point for every label, the loop returns, and for
    every index [i] of the label sequence it has called
    [ax.annotate(label, point)] with the label of [i] at the point of some
    index [j <= i], all labels from [j] to [i] being that same label. *)
Theorem annotation_covers_every_label (pts : list Plot.point)
  (words : list string) (i : nat) (w : string)
  (Haligned : (List.length words <= List.length pts)%nat)
  (Hi : nth_error words i = Some w) :
  snd (Plot.annotate_words pts words) = inr tt
  /\ exists j, (j <= i)%nat
               /\ In (Plot.Annotate w (nth j pts (0%Q, 0%Q)))
                     (fst (Plot.annotate_words pts words))
               /\ forall m, (j <= m <= i)%nat -> nth_error words m = Some w.
Proof.
  rewrite annotate_words_any.
  rewrite (aligned_labels_have_points pts words Haligned).
  rewrite (forallb_filter_all _ _
             (aligned_labels_have_points pts words Haligned)).
  cbn [fst snd]. split; [reflexivity|].
  destruct (annotation_set_covers words i Hi) as [j [Hj [Hin Hall]]].
  exists j. split; [exact Hj|]. split; [| exact Hall].
  change (Plot.Annotate w (nth j pts (0%Q, 0%Q)))
    with (Plot.annotation pts (j, w)).
  apply in_map. exact Hin.
Qed.

Lemma annotation_covers_every_label_witness :
  snd (Plot.annotate_words Inputs.three_points Inputs.pad_pad_good) = inr tt
  /\ exists j, (j <= 1)%nat
               /\ In (Plot.Annotate "PAD" (nth j Inputs.three_points
                                               (0%Q, 0%Q)))
                     (fst (Plot.annotate_words Inputs.three_points
                                               Inputs.pad_pad_good))
               /\ forall m, (j <= m <= 1)%nat ->
                            nth_error Inputs.pad_pad_good m
                            = Some "PAD"%string.
Proof.
  apply (@annotation_covers_every_label Inputs.three_points
           Inputs.pad_pad_good 1 "PAD"%string).
  - simpl. lia.
  - reflexivity.
Defined.

(** X9.  A composer that raises has not produced its figure: whenever
    one of the seven entry points ends with an exception, be it from a
    subscript, from the figure calls or from [plt.savefig] itself, no
    [savefig] has completed and no [show] call has been made. *)
Theorem failure_produces_no_output (can_write : Plot.path -> bool) :
  (forall bl_attrs prediction model_str version_ig sentence token_words
          save_str,
      Plot.silent_on_error
        (Plot.visualize_attrs can_write bl_attrs prediction model_str
                              version_ig sentence token_words save_str))
  /\ (forall flattened,
         Plot.silent_on_error (Plot.embedding_histogram flattened))
  /\ (forall avg_scores model_str ablation_str num_examples save_str,
         Plot.silent_on_error
           (Plot.visualize_ablation_scores can_write avg_scores model_str
                                           ablation_str num_examples save_str))
  /\ (forall word_emb pca interesting_embs,
         Plot.silent_on_error
           (Plot.visualize_embedding_space can_write word_emb pca
                                           interesting_embs))
  /\ (forall word_path_emb word_path_discretized_emb word_path cloud_emb pca
             model_str version_ig save_str,
         Plot.silent_on_error
           (Plot.visualize_word_paths can_write word_path_emb
                                      word_path_discretized_emb word_path
                                      cloud_emb pca model_str version_ig
                                      save_str))
  /\ (forall word_path_emb word_path_discretized_emb word_path pca model_str
             version_ig save_str,
         Plot.silent_on_error
           (Plot.visualize_word_path can_write word_path_emb
                                     word_path_discretized_emb word_path pca
                                     model_str version_ig save_str))
  /\ (forall word_path model_str version_ig baseline_str save_str,
         Plot.silent_on_error
           (Plot.visualize_word_path_table can_write word_path model_str
                                           version_ig baseline_str save_str)).
Proof.
  split; [intros; apply visualize_attrs_silent|].
  split; [intros; apply embedding_histogram_silent|].
  split; [intros; apply visualize_ablation_scores_silent|].
  split; [intros; apply visualize_embedding_space_silent|].
  split; [intros; apply visualize_word_paths_silent|].
  split; [intros; apply visualize_word_path_silent|].
  intros; apply visualize_word_path_table_silent.
Qed.

Lemma failure_produces_no_output_witness :
  Plot.outputs
    (fst (Plot.visualize_word_path Inputs.writable Inputs.two_rows
            Inputs.two_rows Inputs.three_labels Inputs.first_two "bert" "ig"
            (Some "path"%string))) = []
  /\ Plot.outputs
       (fst (Plot.visualize_attrs Inputs.read_only Inputs.short_scores
               "positive" "bert" "ig" "a good movie" Inputs.three_tokens
               (Some "attrs"%string))) = [].
Proof.
  split.
  - destruct (failure_produces_no_output Inputs.writable)
      as [_ [_ [_ [_ [_ [Hpath _]]]]]].
    apply (Hpath Inputs.two_rows Inputs.two_rows Inputs.three_labels
                 Inputs.first_two "bert"%string "ig"%string
                 (Some "path"%string) Py.IndexError).
    vm_compute. reflexivity.
  - destruct (failure_produces_no_output Inputs.read_only) as [Hattrs _].
    apply (Hattrs Inputs.short_scores "positive"%string "bert"%string
                  "ig"%string "a good movie"%string Inputs.three_tokens
                  (Some "attrs"%string) Py.OSError).
    vm_compute. reflexivity.
Defined.

(** X10.  The file name given to [savefig] is stable: normalising an
    already normalised name changes nothing, so passing the name with or
    without [".png"] leads to the same file, and the name given is always
    kept as the beginning of the file name. *)
Theorem png_name_idempotent (name : string) :
  Plot.png_name (Plot.png_name name) = Plot.png_name name
  /\ (forall can_write,
         Plot.save_or_show can_write (Some (Plot.png_name name))
         = Plot.save_or_show can_write (Some name))
  /\ String.prefix name (Plot.png_name name) = true.
Proof.
  assert (Hidem : Plot.png_name (Plot.png_name name) = Plot.png_name name).
  { unfold Plot.png_name at 1. now rewrite png_name_endswith. }
  split; [exact Hidem|].
  split.
  { intros can_write. rewrite !save_or_show_some. unfold Plot.save_target.
    now rewrite Hidem. }
  unfold Plot.png_name. destruct (Py.endswith name ".png"); simpl.
  - clear. induction name as [| c s IH]; [reflexivity|].
    simpl. rewrite IH. destruct (Ascii.ascii_dec c c); [reflexivity | congruence].
  - clear. induction name as [| c s IH]; [reflexivity|].
    simpl. rewrite IH. destruct (Ascii.ascii_dec c c); [reflexivity | congruence].
Qed.

(* ================================================================= *)
(** ** Further properties of the distribution statistics *)

Section SummaryFacts.

Import Stats.

Lemma embedding_histogram_empty :
  Stats.embedding_histogram [] = inl Py.IndexError.
Proof. reflexivity. Qed.

(** All the fields of a returned summary. *)
Lemma embedding_histogram_all_fields (flattened : list R) :
  flattened <> [] ->
  exists s,
    Stats.embedding_histogram flattened = inr s
    /\ s_min s = np_min flattened
    /\ s_max s = np_max flattened
    /\ mu s = np_mean flattened
    /\ sigma s = np_std flattened
    /\ top s = (mu s + 258 / 100 * sigma s)%R
    /\ bot s = (mu s - 258 / 100 * sigma s)%R
    /\ count s
       = Z.of_nat (List.length (filter (inside (bot s) (top s)) flattened))
    /\ pct s = (100 * IZR (count s) / INR (List.length flattened))%R
    /\ Py.getitem (np_sort flattened) (n_outliers (List.length flattened))
       = Some (soft_top s)
    /\ Py.getitem (np_sort flattened) (- n_outliers (List.length flattened))
       = Some (soft_bot s).
Proof.
  intros Hne.
  destruct (embedding_histogram_fields Hne) as
    [s [Hs [Hm [Hsg [Ht [Hb [Hc [Hp [Hst Hsb]]]]]]]]].
  exists s. split; [exact Hs|].
  rewrite np_sum_bool_count in Hc.
  unfold Stats.embedding_histogram in Hs.
  destruct (Py.getitem (np_sort flattened) (n_outliers (List.length flattened)));
    [| discriminate Hs].
  destruct (Py.getitem (np_sort flattened)
                       (- n_outliers (List.length flattened)));
    [| discriminate Hs].
  injection Hs as Hs.
  split; [rewrite <- Hs; reflexivity|].
  split; [rewrite <- Hs; reflexivity|].
  repeat (split; [assumption|]). assumption.
Qed.

Lemma sorted_nth_monotone (l : list R) (i j : nat) (a b : R) :
  StronglySorted Rle l -> (i <= j)%nat ->
  nth_error l i = Some a -> nth_error l j = Some b -> (a <= b)%R.
Proof.
  intros Hs. revert i j. induction Hs as [| x l Hs IH Hall]; intros i j Hij Hi Hj.
  - destruct i; discriminate.
  - destruct i as [| i'], j as [| j']; simpl in Hi, Hj.
    + injection Hi as <-. injection Hj as <-. apply Rle_refl.
    + injection Hi as <-. rewrite Forall_forall in Hall.
      apply Hall. eapply nth_error_In; exact Hj.
    + lia.
    + apply (IH i' j'); [lia | exact Hi | exact Hj].
Qed.

Lemma n_outliers_at_most_half (len : nat) :
  (1 <= len)%nat -> (2 * n_outliers len <= Z.of_nat len)%Z.
Proof.
  intros Hlen. destruct (le_lt_dec len 500) as [Hs | Hl].
  - rewrite n_outliers_small by exact Hs. lia.
  - pose proof (n_outliers_nearest len). lia.
Qed.

Lemma np_min_least (a : list R) :
  a <> [] -> In (np_min a) a /\ forall x, In x a -> (np_min a <= x)%R.
Proof.
  destruct a as [| x a]; [congruence | intros _]. unfold np_min.
  induction a as [| y a IH]; simpl fold_right.
  - split; [now left|]. intros z [<- | []]. apply Rle_refl.
  - destruct IH as [Hin Hle]. split.
    + destruct (Rle_dec y (fold_right Rmin x a)) as [Hy | Hy].
      * rewrite Rmin_left by exact Hy. right. now left.
      * rewrite Rmin_right by lra.
        destruct Hin as [Hin | Hin]; [now left | right; now right].
    + intros z Hz. pose proof (Rmin_l y (fold_right Rmin x a)).
      pose proof (Rmin_r y (fold_right Rmin x a)).
      destruct Hz as [Hz | [Hz | Hz]].
      * pose proof (Hle z (or_introl Hz)). lra.
      * subst z. lra.
      * pose proof (Hle z (or_intror Hz)). lra.
Qed.

Lemma np_max_greatest (a : list R) :
  a <> [] -> In (np_max a) a /\ forall x, In x a -> (x <= np_max a)%R.
Proof.
  destruct a as [| x a]; [congruence | intros _]. unfold np_max.
  induction a as [| y a IH]; simpl fold_right.
  - split; [now left|]. intros z [<- | []]. apply Rle_refl.
  - destruct IH as [Hin Hle]. split.
    + destruct (Rle_dec y (fold_right Rmax x a)) as [Hy | Hy].
      * rewrite Rmax_right by exact Hy.
        destruct Hin as [Hin | Hin]; [now left | right; now right].
      * rewrite Rmax_left by lra. right. now left.
    + intros z Hz. pose proof (Rmax_l y (fold_right Rmax x a)).
      pose proof (Rmax_r y (fold_right Rmax x a)).
      destruct Hz as [Hz | [Hz | Hz]].
      * pose proof (Hle z (or_introl Hz)). lra.
      * subst z. lra.
      * pose proof (Hle z (or_intror Hz)). lra.
Qed.

End SummaryFacts.



(** X12.  The two soft bounds are ordered against their names: for every
    non-empty input [soft_top <= soft_bot], and both lie between the
    reported minimum and maximum. *)
Theorem soft_top_not_above_soft_bot (flattened : list R)
  (Hne : flattened <> []) :
  exists s,
    Stats.embedding_histogram flattened = inr s
    /\ (Stats.s_min s <= Stats.soft_top s)%R
    /\ (Stats.soft_top s <= Stats.soft_bot s)%R
    /\ (Stats.soft_bot s <= Stats.s_max s)%R.
Proof.
  destruct (embedding_histogram_all_fields Hne) as
    [s [Hs [Hmin [Hmax [_ [_ [_ [_ [_ [_ [Hst Hsb]]]]]]]]]]].
  exists s. split; [exact Hs|].
  assert (Hlen : (1 <= List.length flattened)%nat)
    by (destruct flattened; [congruence | simpl; lia]).
  pose proof (n_outliers_range Hlen) as Hk.
  pose proof (n_outliers_at_most_half Hlen) as Hhalf.
  destruct (np_sort_ascending flattened) as [Hsorted Hperm].
  destruct (np_min_least Hne) as [_ Hleast].
  destruct (np_max_greatest Hne) as [_ Hgreatest].
  rewrite getitem_front in Hst by lia.
  assert (Hsb' : exists j, (Z.to_nat (Stats.n_outliers (List.length flattened))
                            <= j)%nat
                           /\ nth_error (Stats.np_sort flattened) j
                              = Some (Stats.soft_bot s)).
  { destruct (Z.eq_dec (Stats.n_outliers (List.length flattened)) 0) as [E | E].
    - rewrite E in *. simpl in Hsb. rewrite getitem_front in Hsb by lia.
      exists 0%nat. split; [simpl; lia | exact Hsb].
    - rewrite getitem_back in Hsb by (rewrite np_sort_length; lia).
      rewrite np_sort_length, Z.opp_involutive in Hsb.
      eexists. split; [| exact Hsb]. lia. }
  destruct Hsb' as [j [Hj Hsbj]].
  assert (Hin_top : In (Stats.soft_top s) flattened).
  { apply (Permutation_in _ (Permutation_sym Hperm)).
    eapply nth_error_In; exact Hst. }
  assert (Hin_bot : In (Stats.soft_bot s) flattened).
  { apply (Permutation_in _ (Permutation_sym Hperm)).
    eapply nth_error_In; exact Hsbj. }
  split; [rewrite Hmin; apply Hleast; exact Hin_top|].
  split; [exact (sorted_nth_monotone Hsorted Hj Hst Hsbj)|].
  rewrite Hmax. apply Hgreatest. exact Hin_bot.
Qed.

Lemma soft_top_not_above_soft_bot_witness :
  exists s,
    Stats.embedding_histogram Inputs.many_values = inr s
    /\ (Stats.s_min s <= Stats.soft_top s)%R
    /\ (Stats.soft_top s <= Stats.soft_bot s)%R
    /\ (Stats.soft_bot s <= Stats.s_max s)%R.
Proof.
  apply (@soft_top_not_above_soft_bot Inputs.many_values).
  unfold Inputs.many_values. simpl. discriminate.
Defined.

(** X13.  The reported minimum and maximum are values of the input, and
    every value of the input lies between them. *)
Theorem summary_extremes (flattened : list R)
  (Hne : flattened <> []) :
  exists s,
    Stats.embedding_histogram flattened = inr s
    /\ In (Stats.s_min s) flattened
    /\ In (Stats.s_max s) flattened
    /\ (forall x, In x flattened -> (Stats.s_min s <= x <= Stats.s_max s)%R).
Proof.
  destruct (embedding_histogram_all_fields Hne) as
    [s [Hs [Hmin [Hmax _]]]].
  exists s. split; [exact Hs|].
  destruct (np_min_least Hne) as [Hmin_in Hleast].
  destruct (np_max_greatest Hne) as [Hmax_in Hgreatest].
  split; [rewrite Hmin; exact Hmin_in|].
  split; [rewrite Hmax; exact Hmax_in|].
  intros x Hx. rewrite Hmin, Hmax.
  split; [apply Hleast | apply Hgreatest]; exact Hx.
Qed.

Lemma summary_extremes_witness :
  exists s,
    Stats.embedding_histogram Inputs.three_values = inr s
    /\ Stats.s_min s = 1%R
    /\ Stats.s_max s = 3%R.
Proof.
  destruct (@summary_extremes Inputs.three_values)
    as [s [Hs [Hmin [Hmax Hall]]]].
  - unfold Inputs.three_values. discriminate.
  - exists s. split; [exact Hs|].
    assert (H1 : In 1%R Inputs.three_values) by (right; left; reflexivity).
    assert (H3 : In 3%R Inputs.three_values) by (left; reflexivity).
    pose proof (Hall _ H1) as B1. pose proof (Hall _ H3) as B3.
    unfold Inputs.three_values in Hmin, Hmax. simpl in Hmin, Hmax.
    split; [destruct Hmin as [E | [E | [E | []]]]; lra
           | destruct Hmax as [E | [E | [E | []]]]; lra].
Defined.

(* ================================================================= *)
(** ** The traces of the remaining composers *)

Section ComposerFacts.

Import Plot.

Lemma for_each_traces {A : Type} (xs : list A) (body : A -> M unit)
  (g : A -> list event) :
  (forall x, In x xs -> body x = (g x, inr tt)) ->
  for_each xs body = (flat_map g xs, inr tt).
Proof.
  induction xs as [| x xs IH]; intros Hb; [reflexivity|].
  cbn [for_each flat_map].
  rewrite (@bind_ok _ _ _ _ _ _ (Hb x (or_introl eq_refl))).
  rewrite IH by (intros y Hy; apply Hb; now right). reflexivity.
Qed.

Lemma bind_emit_ok {B : Type} (ev : event) (k : unit -> M B)
  (tr : list event) (r : Py.exn + B) :
  k tt = (tr, r) -> bind (emit ev) k = (ev :: tr, r).
Proof. intros H. rewrite bind_emit, H. reflexivity. Qed.

Lemma save_or_show_pair (can_write : path -> bool)
  (save_str : option string) :
  save_or_show can_write save_str
  = (fst (save_or_show can_write save_str),
     snd (save_or_show can_write save_str)).
Proof. now destruct (save_or_show can_write save_str). Qed.

Lemma save_or_show_result (can_write : path -> bool)
  (save_str : option string) :
  snd (save_or_show can_write save_str) = inr tt
  \/ snd (save_or_show can_write save_str) = inl Py.OSError.
Proof.
  destruct save_str as [name |]; [| now left].
  rewrite save_or_show_some. unfold plt_savefig.
  destruct (can_write (save_target name)); [now left | now right].
Qed.

Lemma nth_error_last {A : Type} (a : list A) (d : A) :
  a <> [] -> nth_error a (List.length a - 1) = Some (last a d).
Proof.
  intros Hne. destruct (exists_last Hne) as [a0 [x ->]].
  rewrite last_last, length_app. simpl.
  replace (List.length a0 + 1 - 1)%nat with (List.length a0) by lia.
  rewrite nth_error_app2 by lia. rewrite Nat.sub_diag. reflexivity.
Qed.

Lemma subscript_last {A : Type} (a : list A) (d : A) :
  a <> [] -> subscript a (-1) = ret (last a d).
Proof.
  intros Hne. unfold subscript.
  assert (Hlen : (1 <= List.length a)%nat)
    by (destruct a; [congruence | simpl; lia]).
  rewrite getitem_back by lia.
  change (Z.to_nat (- -1)) with 1%nat.
  rewrite (nth_error_last d Hne). reflexivity.
Qed.

Lemma path_body_run (pca : list embedding -> list point)
  (item : list embedding * list embedding * list string) :
  path_aligned pca item ->
  (let '(path, disc_path, words) := item in
   let path_pca := pca path in
   let disc_path_pca := pca disc_path in
   bind (subscript words (-1)) (fun last =>
   bind (emit (PlotLine path_pca (last ++ ": Actual interpolation")))
        (fun _ =>
   bind (subscript words (-1)) (fun last =>
   bind (emit (PlotLine disc_path_pca
                        (last ++ ": Discretized interpolation")))
        (fun _ => annotate_words disc_path_pca words)))))
  = (path_drawing pca item, inr tt).
Proof.
  destruct item as [[path disc_path] words]. intros [Hne Hlen].
  cbv zeta. unfold path_drawing.
  rewrite (subscript_last EmptyString Hne).
  rewrite bind_ret_l. apply bind_emit_ok.
  rewrite bind_ret_l. apply bind_emit_ok.
  exact (annotate_words_run _ _ Hlen).
Qed.

Lemma zip3_length {A B C : Type} (a : list A) (b : list B) (c : list C) :
  List.length (zip3 a b c)
  = Nat.min (List.length a) (Nat.min (List.length b) (List.length c)).
Proof.
  revert b c. induction a as [| x a IH]; intros b c; [reflexivity|].
  destruct b as [| y b]; [reflexivity|].
  destruct c as [| z c]; [simpl; lia|].
  simpl. now rewrite IH.
Qed.

End ComposerFacts.

(** X18.  [visualize_word_paths] draws as many paths as the shortest of
    its three sequences holds.  When every such path has at least one
    label and a projected point for every label, the call has drawn, per
    path and in order, the two lines labelled with the path's last word
    followed by the annotations of the reduced label sequence; then
    legend, title and axis labels; and it ends as its save-or-show
    statements do. *)
Theorem visualize_word_paths_trace
  (can_write : Plot.path -> bool)
  (word_path_emb word_path_discretized_emb : list (list Plot.embedding))
  (word_path : list (list string))
  (cloud_emb : list Plot.embedding)
  (pca : list Plot.embedding -> list Plot.point)
  (model_str version_ig : string) (save_str : option string)
  (Haligned : Forall (Plot.path_aligned pca)
                (Plot.zip3 word_path_emb word_path_discretized_emb word_path)) :
  Plot.visualize_word_paths can_write word_path_emb word_path_discretized_emb
                            word_path cloud_emb pca model_str version_ig
                            save_str
  = (Plot.Subplots 1 1
       :: Plot.Scatter (pca cloud_emb)
       :: flat_map (Plot.path_drawing pca)
            (Plot.zip3 word_path_emb word_path_discretized_emb word_path)
       ++ [Plot.Legend;
           Plot.Title [version_ig; model_str];
           Plot.SetXLabel "1st PCA dimension";
           Plot.SetYLabel "2nd PCA dimension";
           Plot.TightLayout]
       ++ fst (Plot.save_or_show can_write save_str),
     snd (Plot.save_or_show can_write save_str))
  /\ List.length (Plot.zip3 word_path_emb word_path_discretized_emb word_path)
     = Nat.min (List.length word_path_emb)
               (Nat.min (List.length word_path_discretized_emb)
                        (List.length word_path)).
Proof.
  split; [| apply zip3_length].
  unfold Plot.visualize_word_paths.
  apply bind_emit_ok. apply bind_emit_ok.
  rewrite (@bind_ok _ _ _ _
             (flat_map (Plot.path_drawing pca)
                (Plot.zip3 word_path_emb word_path_discretized_emb word_path))
             tt).
  - cbn [fst snd].
    rewrite (@bind_emit_ok _ _ _
               ([Plot.Title [version_ig; model_str];
                 Plot.SetXLabel "1st PCA dimension";
                 Plot.SetYLabel "2nd PCA dimension";
                 Plot.TightLayout]
                ++ fst (Plot.save_or_show can_write save_str))
               (snd (Plot.save_or_show can_write save_str)));
      [reflexivity|].
    repeat apply bind_emit_ok. simpl app. apply save_or_show_pair.
  - apply for_each_traces. intros item Hitem.
    rewrite Forall_forall in Haligned.
    pose proof (@path_body_run pca item (Haligned item Hitem)) as Hrun.
    destruct item as [[path disc_path] words]. exact Hrun.
Qed.

Lemma visualize_word_paths_trace_witness :
  Plot.visualize_word_paths Inputs.writable [Inputs.three_rows]
                            [Inputs.three_rows] [Inputs.pad_pad_good]
                            Inputs.two_rows Inputs.first_two "bert" "ig"
                            (Some "paths"%string)
  = ([Plot.Subplots 1 1;
      Plot.Scatter [(0%Q, 0%Q); (1%Q, 1%Q)];
      Plot.PlotLine Inputs.three_points "good: Actual interpolation";
      Plot.PlotLine Inputs.three_points "good: Discretized interpolation";
      Plot.Annotate "PAD" (0%Q, 0%Q);
      Plot.Annotate "good" (1%Q, 1%Q);
      Plot.Legend;
      Plot.Title ["ig"%string; "bert"%string];
      Plot.SetXLabel "1st PCA dimension";
      Plot.SetYLabel "2nd PCA dimension";
      Plot.TightLayout;
      Plot.SaveFig (Plot.PathDiv (Plot.Path "figures")
                                 (Plot.Path "paths.png"))],
     inr tt).
Proof.
  destruct (@visualize_word_paths_trace Inputs.writable [Inputs.three_rows]
              [Inputs.three_rows] [Inputs.pad_pad_good] Inputs.two_rows
              Inputs.first_two "bert" "ig" (Some "paths"%string))
    as [Heq _].
  - constructor; [| constructor].
    split; [discriminate | simpl; lia].
  - rewrite Heq. reflexivity.
Defined.

(* ================================================================= *)
(** ** The single path plot and the path table *)

Section TableFacts.

Import Plot.

Lemma subscript_head {A : Type} (x : A) (l : list A) :
  subscript (x :: l) 0 = ret x.
Proof. reflexivity. Qed.

Lemma setitem_first {A : Type} (x : A) (a : list A) (v : A) :
  setitem (x :: a) 0 v = ret (v :: a).
Proof.
  unfold setitem. cbv zeta. change (0 <=? 0)%Z with true. cbv iota.
  assert (H : ((0 <=? 0) && (0 <? Z.of_nat (List.length (x :: a))))%Z = true).
  { apply andb_true_intro. split; [reflexivity|].
    apply Z.ltb_lt. simpl List.length. lia. }
  rewrite H. reflexivity.
Qed.

Lemma setitem_last {A : Type} (a : list A) (v : A) :
  a <> [] -> setitem a (-1) v = ret (removelast a ++ [v]).
Proof.
  intros Hne.
  assert (Hlen : (1 <= List.length a)%nat)
    by (destruct a; [congruence | simpl; lia]).
  unfold setitem. cbv zeta. change (0 <=? -1)%Z with false. cbv iota.
  assert (H : ((0 <=? Z.of_nat (List.length a) + -1)
               && (Z.of_nat (List.length a) + -1
                   <? Z.of_nat (List.length a)))%Z = true).
  { apply andb_true_intro. split; [apply Z.leb_le | apply Z.ltb_lt]; lia. }
  rewrite H.
  replace (Z.to_nat (Z.of_nat (List.length a) + -1))
    with (Nat.pred (List.length a)) by lia.
  replace (S (Nat.pred (List.length a))) with (List.length a) by lia.
  rewrite skipn_all, <- removelast_firstn_len. reflexivity.
Qed.

(** The header column built by lines 273-275 for paths of [l >= 1]
    steps. *)
Lemma description_run (l : nat) :
  (1 <= l)%nat ->
  exists d1 description,
    setitem (repeat EmptyString l) 0 "BASELINE"%string = ret d1
    /\ setitem d1 (-1) "ORIGINAL"%string = ret description
    /\ List.length description = l
    /\ nth (l - 1) description EmptyString = "ORIGINAL"%string
    /\ ((2 <= l)%nat -> nth 0 description EmptyString = "BASELINE"%string).
Proof.
  intros Hl. destruct l as [| l']; [lia|].
  cbn [repeat]. rewrite setitem_first.
  exists ("BASELINE"%string :: repeat EmptyString l').
  rewrite setitem_last by discriminate.
  eexists. split; [reflexivity|]. split; [reflexivity|].
  assert (Hrl : List.length (removelast ("BASELINE"%string
                                           :: repeat EmptyString l')) = l').
  { rewrite removelast_firstn_len. cbn [List.length Nat.pred].
    rewrite repeat_length. rewrite firstn_length_le; [reflexivity|].
    cbn [List.length]. rewrite repeat_length. lia. }
  split; [rewrite length_app, Hrl; simpl; lia|].
  split.
  - replace (S l' - 1)%nat with l' by lia.
    rewrite app_nth2 by lia. rewrite Hrl, Nat.sub_diag. reflexivity.
  - intros H2. destruct l' as [| l'']; [lia|]. reflexivity.
Qed.

Lemma transposed_row (l r : nat) (rows : list (list string)) :
  (r < l)%nat ->
  nth r (rev (transpose l rows)) []
  = map (fun row => nth (l - S r) row EmptyString) rows.
Proof.
  intros Hr. unfold transpose.
  rewrite rev_nth by (rewrite length_map, length_seq; exact Hr).
  rewrite length_map, length_seq.
  rewrite (nth_indep _ []
             ((fun j => map (fun row => nth j row EmptyString) rows) 0%nat))
    by (rewrite length_map, length_seq; lia).
  rewrite (map_nth (fun j => map (fun row => nth j row EmptyString) rows)).
  rewrite seq_nth by lia. reflexivity.
Qed.

Lemma same_length_rectangular (description first : list string)
  (rest : list (list string)) :
  List.length description = List.length first ->
  Forall (fun row => List.length row = List.length first) rest ->
  rectangular (description :: first :: rest) = true.
Proof.
  intros Hdl Hsame. unfold rectangular. apply forallb_forall.
  intros row [<- | Hin]; apply Nat.eqb_eq; [now rewrite Hdl|].
  rewrite Forall_forall in Hsame. rewrite Hdl. exact (Hsame row Hin).
Qed.

Lemma ragged_not_rectangular (description first : list string)
  (ragged : list (list string)) :
  List.length description = List.length first ->
  Exists (fun row => List.length row <> List.length first) ragged ->
  rectangular (description :: first :: ragged) = false.
Proof.
  intros Hdl Hex. apply Exists_exists in Hex. destruct Hex as [row [Hin Hne]].
  destruct (rectangular (description :: first :: ragged)) eqn:E;
    [exfalso | reflexivity].
  unfold rectangular in E. rewrite forallb_forall in E.
  specialize (E row (or_intror Hin)). apply Nat.eqb_eq in E.
  rewrite Hdl in E. exact (Hne E).
Qed.

End TableFacts.

(** X19.  [visualize_word_path] returns normally exactly when every label
    it has to annotate (index 0 or different from its predecessor) has a
    projected point and its save-or-show statements succeed; labels beyond
    the last point do no harm as long as they repeat the label before
    them.  A call that does not return raises [IndexError] (a label
    without point) or [OSError] (from [savefig]).  Both lines are drawn in
    every case. *)
Theorem visualize_word_path_returns_iff
  (can_write : Plot.path -> bool)
  (word_path_emb word_path_discretized_emb : list Plot.embedding)
  (word_path : list string)
  (pca : list Plot.embedding -> list Plot.point)
  (model_str version_ig : string) (save_str : option string) :
  (snd (Plot.visualize_word_path can_write word_path_emb
          word_path_discretized_emb word_path pca model_str version_ig
          save_str)
   = inr tt
   <-> forallb (Plot.has_point (pca word_path_discretized_emb))
               (Plot.annotation_set word_path) = true
       /\ snd (Plot.save_or_show can_write save_str) = inr tt)
  /\ (snd (Plot.visualize_word_path can_write word_path_emb
             word_path_discretized_emb word_path pca model_str version_ig
             save_str)
      = inr tt
      \/ snd (Plot.visualize_word_path can_write word_path_emb
                 word_path_discretized_emb word_path pca model_str version_ig
                 save_str)
         = inl Py.IndexError
      \/ snd (Plot.visualize_word_path can_write word_path_emb
                 word_path_discretized_emb word_path pca model_str version_ig
                 save_str)
         = inl Py.OSError)
  /\ In (Plot.PlotLine (pca word_path_emb) "Actual interpolation")
        (fst (Plot.visualize_word_path can_write word_path_emb
                word_path_discretized_emb word_path pca model_str version_ig
                save_str))
  /\ In (Plot.PlotLine (pca word_path_discretized_emb)
                       "Discretized interpolation")
        (fst (Plot.visualize_word_path can_write word_path_emb
                word_path_discretized_emb word_path pca model_str version_ig
                save_str)).
Proof.
  rewrite visualize_word_path_run.
  destruct (forallb (Plot.has_point (pca word_path_discretized_emb))
                    (Plot.annotation_set word_path)) eqn:E; cbn [fst snd].
  - split; [split; [intros H; now split | intros [_ H]; exact H]|].
    split.
    { destruct (save_or_show_result can_write save_str) as [H | H];
        rewrite H; auto. }
    split; apply in_or_app; left; unfold Plot.word_path_lines.
    + right. now left.
    + right. right. now left.
  - split; [split; [intros H; discriminate H | intros [H _]; discriminate H]|].
    split; [right; now left|].
    split; apply in_or_app; left; unfold Plot.word_path_lines.
    + right. now left.
    + right. right. now left.
Qed.

(** X20.  The path table.  An empty list of paths, or a first path
    without steps, raises [IndexError] before anything is drawn, and
    paths of different lengths raise before anything is drawn.  For paths
    that all have the same [l >= 1] steps the table is drawn and the call
    ends as its save-or-show statements do; the table has [l] rows of one
    header cell plus one cell per path; read from the top, each path's
    column runs from its last word down to its first; the header cell of
    the top row reads ORIGINAL and, for [l >= 2], that of the bottom row
    reads BASELINE; the two cells coloured red are these two header
    cells. *)
Theorem visualize_word_path_table_layout
  (can_write : Plot.path -> bool)
  (first : list string) (rest : list (list string))
  (model_str version_ig baseline_str : string) (save_str : option string)
  (Hsteps : first <> [])
  (Hsame : Forall (fun row => List.length row = List.length first) rest) :
  Plot.visualize_word_path_table can_write [] model_str version_ig
                                 baseline_str save_str
  = ([], inl Py.IndexError)
  /\ Plot.visualize_word_path_table can_write ([] :: rest) model_str
                                    version_ig baseline_str save_str
     = ([], inl Py.IndexError)
  /\ (forall ragged,
         Exists (fun row => List.length row <> List.length first) ragged ->
         exists e,
           Plot.visualize_word_path_table can_write (first :: ragged)
                                          model_str version_ig baseline_str
                                          save_str
           = ([], inl e))
  /\ exists cells,
       Plot.visualize_word_path_table can_write (first :: rest) model_str
                                      version_ig baseline_str save_str
       = ([Plot.Subplots 1 1; Plot.AxisOff; Plot.Table cells; Plot.TableFont;
           Plot.TableCellRed 0 0;
           Plot.TableCellRed (List.length first - 1) 0;
           Plot.Title [version_ig; model_str; baseline_str]]
          ++ fst (Plot.save_or_show can_write save_str),
          snd (Plot.save_or_show can_write save_str))
       /\ List.length cells = List.length first
       /\ (forall r, (r < List.length first)%nat ->
              List.length (nth r cells []) = S (S (List.length rest)))
       /\ nth 0 (nth 0 cells []) EmptyString = "ORIGINAL"%string
       /\ ((2 <= List.length first)%nat ->
           nth 0 (nth (List.length first - 1) cells []) EmptyString
           = "BASELINE"%string)
       /\ (forall r c path,
              (r < List.length first)%nat ->
              nth_error (first :: rest) c = Some path ->
              nth (S c) (nth r cells []) EmptyString
              = nth (List.length first - S r) path EmptyString).
Proof.
  split; [reflexivity|]. split; [reflexivity|].
  assert (Hl : (1 <= List.length first)%nat)
    by (destruct first; [congruence | simpl; lia]).
  destruct (description_run Hl)
    as [d1 [description [Hset1 [Hset2 [Hdl [Htop Hbottom]]]]]].
  split.
  { intros ragged Hragged. exists Py.ValueError.
    unfold Plot.visualize_word_path_table.
    rewrite subscript_head, bind_ret_l.
    rewrite Hset1, bind_ret_l, Hset2, bind_ret_l.
    unfold Plot.np_asarray_T_reversed.
    rewrite (@ragged_not_rectangular description first ragged Hdl Hragged).
    reflexivity. }
  exists (rev (Plot.transpose (List.length first)
                 (description :: first :: rest))).
  split.
  { unfold Plot.visualize_word_path_table.
    rewrite subscript_head, bind_ret_l.
    rewrite Hset1, bind_ret_l, Hset2, bind_ret_l.
    unfold Plot.np_asarray_T_reversed.
    rewrite (@same_length_rectangular description first rest Hdl Hsame).
    rewrite bind_ret_l. cbn [hd]. rewrite Hdl.
    repeat apply bind_emit_ok.
    rewrite subscript_head, bind_ret_l. rewrite Hdl.
    repeat apply bind_emit_ok. apply save_or_show_pair. }
  split.
  { unfold Plot.transpose. now rewrite length_rev, length_map, length_seq. }
  split.
  { intros r Hr. rewrite (transposed_row _ Hr). now rewrite length_map. }
  split.
  { rewrite (@transposed_row (List.length first) 0 _ Hl). cbn [map nth].
    exact Htop. }
  split.
  { intros H2.
    rewrite (@transposed_row (List.length first) (List.length first - 1) _)
      by lia.
    cbn [map nth].
    replace (List.length first - S (List.length first - 1))%nat with 0%nat
      by lia.
    exact (Hbottom H2). }
  intros r c path Hr Hc.
  rewrite (transposed_row _ Hr).
  apply (nth_error_nth _ _ EmptyString).
  rewrite nth_error_map.
  change (nth_error (description :: first :: rest) (S c))
    with (nth_error (first :: rest) c).
  rewrite Hc. reflexivity.
Qed.

Lemma visualize_word_path_table_layout_witness :
  (exists cells,
      Plot.visualize_word_path_table Inputs.writable Inputs.two_word_paths
                                     "bert" "ig" "pad" None
      = ([Plot.Subplots 1 1; Plot.AxisOff; Plot.Table cells; Plot.TableFont;
          Plot.TableCellRed 0 0; Plot.TableCellRed 2 0;
          Plot.Title ["ig"%string; "bert"%string; "pad"%string]; Plot.Show],
         inr tt)
      /\ nth 0 (nth 0 cells []) EmptyString = "ORIGINAL"%string
      /\ nth 0 (nth 2 cells []) EmptyString = "BASELINE"%string)
  /\ exists e,
       Plot.visualize_word_path_table Inputs.writable
         [["PAD"%string; "fine"%string; "good"%string]; ["movie"%string]]
         "bert" "ig" "pad" None
       = ([], inl e).
Proof.
  destruct (@visualize_word_path_table_layout Inputs.writable
              ["PAD"%string; "fine"%string; "good"%string]
              [["PAD"%string; "PAD"%string; "movie"%string]]
              "bert" "ig" "pad" None)
    as [_ [_ [Hragged [cells [Hrun [_ [_ [Htop [Hbottom _]]]]]]]]].
  - discriminate.
  - constructor; [reflexivity | constructor].
  - split.
    + exists cells. split; [exact Hrun|]. split; [exact Htop|].
      apply Hbottom. simpl. lia.
    + apply (Hragged [["movie"%string]]).
      apply Exists_cons_hd. simpl. lia.
Defined.

(* ================================================================= *)
(** ** Rounding of the outlier count and the file extension *)

Section RoundingFacts.

Import Stats.

Lemma round_half_even_div_1000 (n : Z) :
  (0 <= n)%Z ->
  (Z.abs (1000 * round_half_even_div n 1000 - n) <= 500)%Z
  /\ (Z.abs (1000 * round_half_even_div n 1000 - n) = 500%Z ->
      Z.even (round_half_even_div n 1000) = true).
Proof.
  intros Hn. unfold round_half_even_div.
  pose proof (Z.div_mod n 1000 ltac:(lia)) as Hdm.
  pose proof (Z.mod_pos_bound n 1000 ltac:(lia)) as Hr.
  destruct (2 * (n mod 1000) <? 1000)%Z eqn:E1.
  - apply Z.ltb_lt in E1. split; lia.
  - apply Z.ltb_ge in E1.
    destruct (1000 <? 2 * (n mod 1000))%Z eqn:E2.
    + apply Z.ltb_lt in E2. split; lia.
    + apply Z.ltb_ge in E2.
      destruct (Z.even (n / 1000)) eqn:Ev.
      * split; [lia | intros _; exact Ev].
      * split; [lia|]. intros _.
        replace (n / 1000 + 1)%Z with (Z.succ (n / 1000)) by lia.
        rewrite Z.even_succ, <- Z.negb_even, Ev. reflexivity.
Qed.

Lemma substring_split (s : string) (k : nat) :
  (k <= String.length s)%nat ->
  s = (substring 0 k s ++ substring k (String.length s - k) s)%string.
Proof.
  revert k. induction s as [| c s IH]; intros k Hk.
  - simpl in Hk. assert (k = 0%nat) by lia. subst. reflexivity.
  - destruct k as [| k'].
    + simpl. now rewrite substring_all.
    + simpl in Hk. simpl. f_equal. apply IH. lia.
Qed.

Lemma endswith_iff (s suffix : string) :
  Py.endswith s suffix = true <-> exists stem, s = (stem ++ suffix)%string.
Proof.
  split.
  - unfold Py.endswith. intros H. apply andb_prop in H.
    destruct H as [Hle Heq]. apply Nat.leb_le in Hle.
    apply String.eqb_eq in Heq.
    exists (substring 0 (String.length s - String.length suffix) s).
    assert (Hk : (String.length s - String.length suffix
                  <= String.length s)%nat) by lia.
    pose proof (substring_split s Hk) as Hsp.
    replace (String.length s - (String.length s - String.length suffix))%nat
      with (String.length suffix) in Hsp by lia.
    rewrite Heq in Hsp. exact Hsp.
  - intros [stem ->]. apply endswith_append.
Qed.

End RoundingFacts.

(** X21.  The outlier count [round(len * 0.001)] is the integer nearest
    to [len / 1000], and an exact half goes to the even neighbour (500
    values give 0, 1500 give 2); evaluating the product in binary64, as
    the interpreter does, gives the same count for every length below
    10000. *)
Theorem n_outliers_rounds_half_even (len : nat) :
  (Z.abs (1000 * Stats.n_outliers len - Z.of_nat len) <= 500)%Z
  /\ (Z.abs (1000 * Stats.n_outliers len - Z.of_nat len) = 500%Z ->
      Z.even (Stats.n_outliers len) = true)
  /\ Stats.n_outliers 500 = 0%Z
  /\ Stats.n_outliers 1500 = 2%Z
  /\ ((Z.of_nat len < 10000)%Z ->
      Stats.n_outliers_binary64 (Z.of_nat len) = Some (Stats.n_outliers len)).
Proof.
  destruct (@round_half_even_div_1000 (Z.of_nat len)) as [Hnear Heven];
    [lia|].
  split; [exact Hnear|]. split; [exact Heven|].
  split; [reflexivity|]. split; [reflexivity|].
  apply n_outliers_binary64_agrees.
Qed.

Lemma n_outliers_rounds_half_even_witness :
  Stats.n_outliers_binary64 (Z.of_nat 2500) = Some (Stats.n_outliers 2500)
  /\ Z.even (Stats.n_outliers 2500) = true.
Proof.
  destruct (n_outliers_rounds_half_even 2500) as [_ [Heven [_ [_ Hbin]]]].
  split.
  - apply Hbin. vm_compute. reflexivity.
  - apply Heven. vm_compute. reflexivity.
Defined.

(** X22.  The save name is left alone exactly when it already ends with
    [".png"] (case-sensitively, as a suffix of the whole name); every
    other name gets [".png"] appended, whatever extension it carries. *)
Theorem png_name_unchanged_iff (name : string) :
  (Plot.png_name name = name
   <-> exists stem, name = (stem ++ ".png")%string)
  /\ (Plot.png_name name = name
      \/ Plot.png_name name = (name ++ ".png")%string)
  /\ Plot.png_name "plot.PNG" = "plot.PNG.png"%string
  /\ Plot.png_name "plot.jpg" = "plot.jpg.png"%string.
Proof.
  split; [| split; [| split; reflexivity]].
  - rewrite <- endswith_iff. unfold Plot.png_name.
    destruct (Py.endswith name ".png") eqn:E; simpl.
    + split; [intros _; reflexivity | reflexivity].
    + split; [| discriminate].
      intros H. apply (f_equal String.length) in H.
      rewrite string_length_append in H. simpl in H. lia.
  - unfold Plot.png_name. destruct (Py.endswith name ".png"); simpl; auto.
Qed.
